(** * The w3af DOM analyzer (dom_analyzer.js), embedded in Rocq

    A shallow embedding of [_DOMAnalyzer]: the interception layer
    (setTimeout / setInterval / addEventListener wrappers), the validity
    matrix, the attribute and inheritance extraction, the serialization
    based deduplication, the document-wide query and the dispatch surface.

    Conventions.
    - JS strings are [string]; a character is one code unit.
    - JS arrays are [list]; a JS object used as a map with string keys is a
      [gmap string _].
    - Code that mutates [_DOMAnalyzer], [window], [document] or
      [Node.prototype], or that may raise, runs in the monad [JS] below:
      explicit state passing with an exception outcome. *)

From Stdlib Require Import ZArith Ascii String DecimalString DecimalZ Lia.
From stdpp Require Import base option list strings gmap.

Local Open Scope Z_scope.

(** ** JavaScript strings *)

Module JsString.

(** The two characters that cannot be written inside a string literal
    of this file without escaping. *)
Definition dquote : ascii := "034"%char.
Definition backslash : ascii := "092"%char.

(** [s.substr(start)]: from index [start] to the end of [s]. *)
Definition substr (s : string) (start : nat) : string :=
  String.substring start (String.length s - start) s.

(** [c.toLowerCase()] on one code unit: A-Z go to a-z. *)
Definition lower_char (c : ascii) : ascii :=
  let n := nat_of_ascii c in
  if ((65 <=? n) && (n <=? 90))%nat then ascii_of_nat (n + 32) else c.

Fixpoint toLowerCase (s : string) : string :=
  match s with
  | EmptyString => EmptyString
  | String c r => String (lower_char c) (toLowerCase r)
  end.

(** [a.includes(x)] on an array of strings ([===] on strings). *)
Fixpoint includes (a : list string) (x : string) : bool :=
  match a with
  | [] => false
  | y :: r => if String.eqb y x then true else includes r x
  end.

(** [s.startsWith(p)]. *)
Fixpoint startsWith (s p : string) : bool :=
  match p, s with
  | EmptyString, _ => true
  | String a p', String b s' => if Ascii.eqb a b then startsWith s' p' else false
  | String _ _, EmptyString => false
  end.

End JsString.

(** ** JSON.stringify on strings and integers *)

Module Json.
Import JsString.

Definition hex_digit (n : nat) : ascii :=
  match n with
  | 0 => "0" | 1 => "1" | 2 => "2" | 3 => "3" | 4 => "4" | 5 => "5"
  | 6 => "6" | 7 => "7" | 8 => "8" | 9 => "9" | 10 => "a" | 11 => "b"
  | 12 => "c" | 13 => "d" | 14 => "e" | _ => "f"
  end%nat%char.

Definition esc (c : ascii) : string := String backslash (String c EmptyString).

(** QuoteJSONString, one code unit: the two-character escapes, [\u00XX]
    for the other control characters, and the character itself
    otherwise. *)
Definition QuoteJSONChar (c : ascii) : string :=
  let n := nat_of_ascii c in
  if (n =? 8)%nat then esc "b"
  else if (n =? 9)%nat then esc "t"
  else if (n =? 10)%nat then esc "n"
  else if (n =? 12)%nat then esc "f"
  else if (n =? 13)%nat then esc "r"
  else if (n =? 34)%nat then esc dquote
  else if (n =? 92)%nat then esc backslash
  else if (n <? 32)%nat then
    String backslash (String "u" (String "0" (String "0"
      (String (hex_digit (n / 16)) (String (hex_digit (n mod 16)) EmptyString)))))
  else String c EmptyString.

Fixpoint QuoteJSONBody (s : string) : string :=
  match s with
  | EmptyString => EmptyString
  | String c r => QuoteJSONChar c +:+ QuoteJSONBody r
  end.

(** [JSON.stringify(s)] for a string [s]. *)
Definition stringify_string (s : string) : string :=
  String dquote (QuoteJSONBody s +:+ String dquote EmptyString).

(** [JSON.stringify(n)] for an integer-valued number [n]. *)
Definition stringify_int (z : Z) : string :=
  NilEmpty.string_of_int (Z.to_int z).

(** Reading one quoted code unit back from the front of a string; used
    only to show that quoting loses nothing. *)
Definition unhex (c : ascii) : nat :=
  let n := nat_of_ascii c in
  if ((48 <=? n) && (n <=? 57))%nat then (n - 48)%nat else (n - 87)%nat.

Definition unquote_char (s : string) : option (ascii * string) :=
  match s with
  | EmptyString => None
  | String c r =>
    if Ascii.eqb c dquote then None
    else if Ascii.eqb c backslash then
      match r with
      | String e r' =>
        if Ascii.eqb e "b" then Some ("008"%char, r')
        else if Ascii.eqb e "t" then Some ("009"%char, r')
        else if Ascii.eqb e "n" then Some ("010"%char, r')
        else if Ascii.eqb e "f" then Some ("012"%char, r')
        else if Ascii.eqb e "r" then Some ("013"%char, r')
        else if Ascii.eqb e "u" then
          match r' with
          | String _ (String _ (String h (String l r''))) =>
            Some (ascii_of_nat (16 * unhex h + unhex l), r'')
          | _ => None
          end
        else Some (e, r')
      | EmptyString => None
      end
    else Some (c, r)
  end.

End Json.

(** ** The validity matrix *)

Definition universally_valid_events : list string :=
  [ "click"; "dblclick"; "mousedown"; "mousemove"; "mouseout"; "mouseover";
    "mouseup" ]%string.

Definition elements_allowed_to_inherit_events_from_ancestors : list string :=
  [ "a"; "div"; "input"; "textarea"; "select"; "form"; "li"; "span";
    "button" ]%string.

Definition valid_events_per_element : gmap string (list string) :=
  list_to_map
    [ ("body", ["load"]);
      ("button", ["focus"; "blur"]);
      ("form", ["submit"; "reset"]);
      ("input", ["select"; "change"; "focus"; "blur"; "keydown"; "keypress";
                 "keyup"; "input"]);
      ("label", ["focus"; "blur"]);
      ("textarea", ["select"; "change"; "focus"; "blur"; "keydown";
                    "keypress"; "keyup"; "input"]);
      ("select", ["change"; "focus"; "blur"]) ]%string.

(** [eventIsValidForTagName(tag_name, attr_name)]. [hasOwnProperty] is the
    presence of the key in the map. *)
Definition eventIsValidForTagName (tag_name attr_name : string) : bool :=
  if JsString.includes universally_valid_events attr_name then true
  else
    match valid_events_per_element !! tag_name with
    | None => false
    | Some events => JsString.includes events attr_name
    end.


(** ** The DOM *)

(** One entry of [element.attributes]. *)
Record Attr : Type := mkAttr {
  nodeName : string;
  nodeValue : string
}.

(** The properties of an element that the analyzer reads. [tagName] is as
    the DOM reports it (upper case in HTML documents). [offsetWidth] and
    [offsetHeight] are [None] where the property is undefined (elements
    that are not HTML elements). *)
Record ElementData : Type := mkElementData {
  tagName : string;
  nodeType : Z;
  attributes : list Attr;
  offsetWidth : option Z;
  offsetHeight : option Z
}.

(** An element together with [elem.parentNode]: null, the document, or
    another element. *)
Inductive Element : Type :=
| mkElement (data : ElementData) (parentNode : ParentNode)
with ParentNode : Type :=
| ParentNull
| ParentDocument
| ParentElement (e : Element).

Definition data (e : Element) : ElementData :=
  match e with mkElement d _ => d end.
Definition parentNode (e : Element) : ParentNode :=
  match e with mkElement _ p => p end.

(** The objects on which [addEventListener] is intercepted. *)
Inductive EventTarget : Type :=
| TWindow
| TDocument
| TElement (e : Element).

(** [target.tagName]: [None] is [undefined]; only elements have one. *)
Definition target_tagName (t : EventTarget) : option string :=
  match t with
  | TWindow => None
  | TDocument => None
  | TElement e => Some (tagName (data e))
  end.

(** ** Event descriptors *)

(** The object literal built by [extractEventsFromAttributes]; the field
    order is the key order that [JSON.stringify] sees. *)
Record EventData : Type := mkEventData {
  tag_name : string;
  node_type : Z;
  selector : string;
  event_type : string;
  handler : string
}.

Global Instance Attr_eq_dec : EqDecision Attr.
Proof. solve_decision. Defined.
Global Instance EventData_eq_dec : EqDecision EventData.
Proof. solve_decision. Defined.

(** [JSON.stringify(edata)]. *)
Definition JSON_stringify (e : EventData) : string :=
  "{" +:+ Json.stringify_string "tag_name" +:+ ":" +:+
          Json.stringify_string (tag_name e) +:+
  "," +:+ Json.stringify_string "node_type" +:+ ":" +:+
          Json.stringify_int (node_type e) +:+
  "," +:+ Json.stringify_string "selector" +:+ ":" +:+
          Json.stringify_string (selector e) +:+
  "," +:+ Json.stringify_string "event_type" +:+ ":" +:+
          Json.stringify_string (event_type e) +:+
  "," +:+ Json.stringify_string "handler" +:+ ":" +:+
          Json.stringify_string (handler e) +:+
  "}".

(** ** Liveness *)

(** [v <= 0] for a property that may be undefined ([undefined <= 0] is
    false). *)
Definition js_le0 (v : option Z) : bool :=
  match v with
  | Some z => z <=? 0
  | None => false
  end.

(** [elementIsHidden(element)]; [None] is a null reference. *)
Definition elementIsHidden (element : option Element) : bool :=
  match element with
  | None => true
  | Some e =>
    if js_le0 (offsetWidth (data e)) && js_le0 (offsetHeight (data e))
    then true
    else false
  end.

(** ** Extraction and inheritance *)

(** [getAncestors(elem, null)]: the loop starts at [elem] itself and
    follows [parentNode] until it is null or the document. *)
Fixpoint getAncestors (elem : Element) : list Element :=
  match elem with
  | mkElement _ p =>
    elem :: match p with
            | ParentElement q => getAncestors q
            | ParentDocument => []
            | ParentNull => []
            end
  end.

(** The inner loop of [objectArrayUniq] for a fixed [i]: every later entry
    whose serialization equals [i_str] is spliced out. [rest] is the part
    of the array after index [i]. *)
Fixpoint splice_equal (i_str : string) (rest : list EventData) : list EventData :=
  match rest with
  | [] => []
  | a_j :: rest' =>
    if String.eqb i_str (JSON_stringify a_j)
    then splice_equal i_str rest'
    else a_j :: splice_equal i_str rest'
  end.

(** The outer loop of [objectArrayUniq]; [fuel] bounds the iterations. *)
Fixpoint objectArrayUniq_loop (fuel : nat) (a : list EventData) : list EventData :=
  match fuel with
  | O => a
  | S fuel' =>
    match a with
    | [] => []
    | a_i :: rest =>
      a_i :: objectArrayUniq_loop fuel' (splice_equal (JSON_stringify a_i) rest)
    end
  end.

Definition objectArrayUniq (array : list EventData) : list EventData :=
  objectArrayUniq_loop (length array) array.

(** [filterByEventName(element_events, event_filter)]. *)
Definition filterByEventName (element_events : list EventData)
    (event_filter : list string) : list EventData :=
  if (length event_filter =? 0)%nat then element_events
  else List.filter (fun event => JsString.includes event_filter (event_type event))
                   element_events.

Section Extraction.

(** [_DOMAnalyzer.selector_generator.getSelector]: the selector
    generator is an external library; it is a parameter here. *)
Variable getSelector : EventTarget -> string.

Fixpoint extractEventsFromAttributes_loop (tag_name : string)
    (element : Element) (selector : string) (attributes : list Attr)
    : list EventData :=
  match attributes with
  | [] => []
  | attr :: rest =>
    let attr_name := JsString.substr (nodeName attr) 2 in
    if negb (eventIsValidForTagName tag_name attr_name)
    then extractEventsFromAttributes_loop tag_name element selector rest
    else
      {| tag_name := tag_name;
         node_type := nodeType (data element);
         selector := selector;
         event_type := attr_name;
         handler := nodeValue attr |}
      :: extractEventsFromAttributes_loop tag_name element selector rest
  end.

Definition extractEventsFromAttributes (tag_name : string)
    (element : Element) : list EventData :=
  let attributes := attributes (data element) in
  let selector := getSelector (TElement element) in
  extractEventsFromAttributes_loop tag_name element selector attributes.

(** The body of the inner loop of [extractInheritedEvents]: the three
    assignments that change the scope of an ancestor's event. *)
Definition rescope (tag_name : string) (element : Element)
    (ancestor_event : EventData) : EventData :=
  {| tag_name := tag_name;
     node_type := nodeType (data element);
     selector := getSelector (TElement element);
     event_type := event_type ancestor_event;
     handler := handler ancestor_event |}.

Fixpoint extractInheritedEvents_loop (tag_name : string) (element : Element)
    (ancestors : list Element) : list EventData :=
  match ancestors with
  | [] => []
  | ancestor_elem :: rest =>
    let ancestor_tag_name := JsString.toLowerCase (tagName (data ancestor_elem)) in
    let ancestor_attribute_events :=
      extractEventsFromAttributes ancestor_tag_name ancestor_elem in
    List.map (rescope tag_name element) ancestor_attribute_events
    ++ extractInheritedEvents_loop tag_name element rest
  end.

Definition extractInheritedEvents (tag_name : string) (element : Element)
    : list EventData :=
  if negb (JsString.includes elements_allowed_to_inherit_events_from_ancestors
                             tag_name)
  then []
  else
    let ancestors := getAncestors element in
    extractInheritedEvents_loop tag_name element ancestors.

(** The merged, deduplicated events of one element, as computed in the
    body of the loop of [getElementsWithEventHandlers]. *)
Definition element_events_of (element : Element) : list EventData :=
  let tag_name := JsString.toLowerCase (tagName (data element)) in
  let attribute_events := extractEventsFromAttributes tag_name element in
  let inherited_events := extractInheritedEvents tag_name element in
  objectArrayUniq (([] ++ attribute_events) ++ inherited_events).

(** [getElementsWithEventHandlers(event_filter)], over the live
    collection [document.getElementsByTagName("*")]. *)
Fixpoint getElementsWithEventHandlers_loop (all_elements : list Element)
    (event_filter : list string) : list EventData :=
  match all_elements with
  | [] => []
  | element :: rest =>
    if elementIsHidden (Some element)
    then getElementsWithEventHandlers_loop rest event_filter
    else
      let element_events := element_events_of element in
      if (length element_events =? 0)%nat
      then getElementsWithEventHandlers_loop rest event_filter
      else
        filterByEventName element_events event_filter
        ++ getElementsWithEventHandlers_loop rest event_filter
  end.

End Extraction.

(** ** The interception layer *)

(** JavaScript values that reach the analyzer as arguments. A function is
    identified by a name; an object reference by the target it denotes. *)
Inductive JsVal : Type :=
| VUndefined
| VNull
| VBool (b : bool)
| VNum (n : Z)
| VStr (s : string)
| VFun (name : string)
| VTarget (t : EventTarget).

Inductive JsError : Type :=
| TypeError (message : string).

(** Entries of [set_timeouts] and [set_intervals]. *)
Record TimerRecord : Type := mkTimerRecord {
  tr_function : JsVal;
  tr_timeout : JsVal
}.

(** Entries of [event_listeners]. *)
Record ListenerRecord : Type := mkListenerRecord {
  lr_tag_name : string;
  lr_node_type : JsVal;
  lr_selector : string;
  lr_event_type : JsVal;
  lr_use_capture : JsVal
}.

(** The values that [window.setTimeout] and [window.setInterval] can hold:
    the platform's implementation, or a wrapper closed over the function
    it replaced. *)
Inductive TimerFn : Type :=
| native_setTimeout
| native_setInterval
| setTimeout_wrapper (original_setTimeout : TimerFn)
| setInterval_wrapper (original_setInterval : TimerFn).

(** The values that the three [addEventListener] slots can hold. *)
Inductive ListenerFn : Type :=
| native_addEventListener
| window_addEventListener_wrapper (original_window_addEventListener : ListenerFn)
| document_addEventListener_wrapper (original_document_addEventListener : ListenerFn)
| node_addEventListener_wrapper (original_node_addEventListener : ListenerFn).

(** What the platform saw: every call that reached a native entry point,
    with its this-binding and arguments. *)
Inductive NativeCall : Type :=
| CallSetTimeout (this : JsVal) (arguments : list JsVal)
| CallSetInterval (this : JsVal) (arguments : list JsVal)
| CallAddEventListener (this : EventTarget) (arguments : list JsVal).

(** The event object built by [dispatchCustomEvent]. *)
Record Event : Type := mkEvent {
  ev_type : string;
  ev_bubbles : bool;
  ev_cancelable : bool;
  ev_altKey : JsVal;
  ev_shiftKey : JsVal;
  ev_ctrlKey : JsVal;
  ev_metaKey : JsVal;
  ev_view : JsVal
}.

(** The page: the fields of [_DOMAnalyzer], the patched slots of [window],
    [document] and [Node.prototype], the ambient global [event], the DOM
    as the analyzer queries it, and the observable effects on the
    platform. [document_addEventListener] is the document's own property
    ([None] while it inherits from [Node.prototype]). [querySelector] is
    [document.querySelector] on locators, which are well-formed selector
    strings: it yields the first matching element or null ([None]). *)
Record Page : Type := mkPage {
  initialized : bool;
  set_timeouts : list TimerRecord;
  set_intervals : list TimerRecord;
  event_listeners : list ListenerRecord;
  window_setTimeout : TimerFn;
  window_setInterval : TimerFn;
  window_addEventListener : ListenerFn;
  document_addEventListener : option ListenerFn;
  Node_prototype_addEventListener : ListenerFn;
  window_event : JsVal;
  all_elements : list Element;
  querySelector : string -> option Element;
  next_timer_id : Z;
  native_calls : list NativeCall;
  dispatched : list (Element * Event)
}.

(** A page on which the analyzer script has just been parsed and nothing
    is patched yet. *)
Definition fresh_page (elements : list Element)
    (query : string -> option Element) (ambient_event : JsVal) : Page :=
  {| initialized := false;
     set_timeouts := [];
     set_intervals := [];
     event_listeners := [];
     window_setTimeout := native_setTimeout;
     window_setInterval := native_setInterval;
     window_addEventListener := native_addEventListener;
     document_addEventListener := None;
     Node_prototype_addEventListener := native_addEventListener;
     window_event := ambient_event;
     all_elements := elements;
     querySelector := query;
     next_timer_id := 1;
     native_calls := [];
     dispatched := [] |}.

(** *** The monad of page scripts *)

Inductive Outcome (A : Type) : Type :=
| Normal (a : A)
| Thrown (e : JsError).
Arguments Normal {A} a.
Arguments Thrown {A} e.

Definition JS (A : Type) : Type := Page -> Outcome A * Page.

Definition throw {A} (e : JsError) : JS A := fun p => (Thrown e, p).

Global Instance JS_ret : MRet JS := fun A a p => (Normal a, p).

Global Instance JS_bind : MBind JS := fun A B k m p =>
  match m p with
  | (Normal a, p') => k a p'
  | (Thrown e, p') => (Thrown e, p')
  end.

Definition get : JS Page := fun p => (Normal p, p).

Definition modify (f : Page -> Page) : JS unit := fun p => (Normal tt, f p).

(** *** Field updates *)

Definition with_initialized (b : bool) (p : Page) : Page :=
  mkPage b (set_timeouts p) (set_intervals p) (event_listeners p)
    (window_setTimeout p) (window_setInterval p) (window_addEventListener p)
    (document_addEventListener p) (Node_prototype_addEventListener p)
    (window_event p) (all_elements p) (querySelector p) (next_timer_id p)
    (native_calls p) (dispatched p).

Definition with_set_timeouts (l : list TimerRecord) (p : Page) : Page :=
  mkPage (initialized p) l (set_intervals p) (event_listeners p)
    (window_setTimeout p) (window_setInterval p) (window_addEventListener p)
    (document_addEventListener p) (Node_prototype_addEventListener p)
    (window_event p) (all_elements p) (querySelector p) (next_timer_id p)
    (native_calls p) (dispatched p).

Definition with_set_intervals (l : list TimerRecord) (p : Page) : Page :=
  mkPage (initialized p) (set_timeouts p) l (event_listeners p)
    (window_setTimeout p) (window_setInterval p) (window_addEventListener p)
    (document_addEventListener p) (Node_prototype_addEventListener p)
    (window_event p) (all_elements p) (querySelector p) (next_timer_id p)
    (native_calls p) (dispatched p).

Definition with_event_listeners (l : list ListenerRecord) (p : Page) : Page :=
  mkPage (initialized p) (set_timeouts p) (set_intervals p) l
    (window_setTimeout p) (window_setInterval p) (window_addEventListener p)
    (document_addEventListener p) (Node_prototype_addEventListener p)
    (window_event p) (all_elements p) (querySelector p) (next_timer_id p)
    (native_calls p) (dispatched p).

Definition with_window_setTimeout (f : TimerFn) (p : Page) : Page :=
  mkPage (initialized p) (set_timeouts p) (set_intervals p) (event_listeners p)
    f (window_setInterval p) (window_addEventListener p)
    (document_addEventListener p) (Node_prototype_addEventListener p)
    (window_event p) (all_elements p) (querySelector p) (next_timer_id p)
    (native_calls p) (dispatched p).

Definition with_window_setInterval (f : TimerFn) (p : Page) : Page :=
  mkPage (initialized p) (set_timeouts p) (set_intervals p) (event_listeners p)
    (window_setTimeout p) f (window_addEventListener p)
    (document_addEventListener p) (Node_prototype_addEventListener p)
    (window_event p) (all_elements p) (querySelector p) (next_timer_id p)
    (native_calls p) (dispatched p).

Definition with_window_addEventListener (f : ListenerFn) (p : Page) : Page :=
  mkPage (initialized p) (set_timeouts p) (set_intervals p) (event_listeners p)
    (window_setTimeout p) (window_setInterval p) f
    (document_addEventListener p) (Node_prototype_addEventListener p)
    (window_event p) (all_elements p) (querySelector p) (next_timer_id p)
    (native_calls p) (dispatched p).

Definition with_document_addEventListener (f : ListenerFn) (p : Page) : Page :=
  mkPage (initialized p) (set_timeouts p) (set_intervals p) (event_listeners p)
    (window_setTimeout p) (window_setInterval p) (window_addEventListener p)
    (Some f) (Node_prototype_addEventListener p)
    (window_event p) (all_elements p) (querySelector p) (next_timer_id p)
    (native_calls p) (dispatched p).

Definition with_Node_prototype_addEventListener (f : ListenerFn) (p : Page) : Page :=
  mkPage (initialized p) (set_timeouts p) (set_intervals p) (event_listeners p)
    (window_setTimeout p) (window_setInterval p) (window_addEventListener p)
    (document_addEventListener p) f
    (window_event p) (all_elements p) (querySelector p) (next_timer_id p)
    (native_calls p) (dispatched p).

Definition with_native_call (c : NativeCall) (p : Page) : Page :=
  mkPage (initialized p) (set_timeouts p) (set_intervals p) (event_listeners p)
    (window_setTimeout p) (window_setInterval p) (window_addEventListener p)
    (document_addEventListener p) (Node_prototype_addEventListener p)
    (window_event p) (all_elements p) (querySelector p) (next_timer_id p)
    (native_calls p ++ [c]) (dispatched p).

Definition with_next_timer_id (n : Z) (p : Page) : Page :=
  mkPage (initialized p) (set_timeouts p) (set_intervals p) (event_listeners p)
    (window_setTimeout p) (window_setInterval p) (window_addEventListener p)
    (document_addEventListener p) (Node_prototype_addEventListener p)
    (window_event p) (all_elements p) (querySelector p) n
    (native_calls p) (dispatched p).

Definition with_dispatched (d : Element * Event) (p : Page) : Page :=
  mkPage (initialized p) (set_timeouts p) (set_intervals p) (event_listeners p)
    (window_setTimeout p) (window_setInterval p) (window_addEventListener p)
    (document_addEventListener p) (Node_prototype_addEventListener p)
    (window_event p) (all_elements p) (querySelector p) (next_timer_id p)
    (native_calls p) (dispatched p ++ [d]).

(** *** The platform's own entry points *)

(** [arguments[i]]; reading past the end gives [undefined]. *)
Definition argument (arguments : list JsVal) (i : nat) : JsVal :=
  default VUndefined (arguments !! i).

(** The native timer functions: they insist on one argument, register the
    call and hand out the next timer id. *)
Definition native_timer (call : JsVal -> list JsVal -> NativeCall)
    (this : JsVal) (arguments : list JsVal) : JS JsVal :=
  if (length arguments <? 1)%nat
  then throw (TypeError "1 argument required, but only 0 present.")
  else
    p ← get;
    modify (with_native_call (call this arguments));;
    modify (with_next_timer_id (next_timer_id p + 1));;
    mret (VNum (next_timer_id p)).

(** The native [addEventListener]: it insists on two arguments, registers
    the call and returns [undefined]. *)
Definition native_listener (this : EventTarget) (arguments : list JsVal)
    : JS JsVal :=
  if (length arguments <? 2)%nat
  then throw (TypeError "2 arguments required.")
  else
    modify (with_native_call (CallAddEventListener this arguments));;
    mret VUndefined.

(** [target.nodeType]. *)
Definition target_nodeType (t : EventTarget) : JsVal :=
  match t with
  | TWindow => VUndefined
  | TDocument => VNum 9
  | TElement e => VNum (nodeType (data e))
  end.

(** [createEvent("Events")], [initEvent] and the five assignments of
    [dispatchCustomEvent]. *)
Definition createEvent : Event :=
  {| ev_type := ""; ev_bubbles := false; ev_cancelable := false;
     ev_altKey := VUndefined; ev_shiftKey := VUndefined;
     ev_ctrlKey := VUndefined; ev_metaKey := VUndefined;
     ev_view := VUndefined |}.

Definition initEvent (event : Event) (type : string) (bubbles cancelable : bool)
    : Event :=
  mkEvent type bubbles cancelable (ev_altKey event) (ev_shiftKey event)
    (ev_ctrlKey event) (ev_metaKey event) (ev_view event).

Definition set_altKey (v : JsVal) (event : Event) : Event :=
  mkEvent (ev_type event) (ev_bubbles event) (ev_cancelable event) v
    (ev_shiftKey event) (ev_ctrlKey event) (ev_metaKey event) (ev_view event).

Definition set_shiftKey (v : JsVal) (event : Event) : Event :=
  mkEvent (ev_type event) (ev_bubbles event) (ev_cancelable event)
    (ev_altKey event) v (ev_ctrlKey event) (ev_metaKey event) (ev_view event).

Definition set_ctrlKey (v : JsVal) (event : Event) : Event :=
  mkEvent (ev_type event) (ev_bubbles event) (ev_cancelable event)
    (ev_altKey event) (ev_shiftKey event) v (ev_metaKey event) (ev_view event).

Definition set_metaKey (v : JsVal) (event : Event) : Event :=
  mkEvent (ev_type event) (ev_bubbles event) (ev_cancelable event)
    (ev_altKey event) (ev_shiftKey event) (ev_ctrlKey event) v (ev_view event).

Definition set_view (v : JsVal) (event : Event) : Event :=
  mkEvent (ev_type event) (ev_bubbles event) (ev_cancelable event)
    (ev_altKey event) (ev_shiftKey event) (ev_ctrlKey event)
    (ev_metaKey event) v.

(** *** The wrappers *)

(** Calling a value of [window.setTimeout] / [window.setInterval]. A
    wrapper pushes its record, applies the function it replaced to the
    same [this] and [arguments], and has no [return] statement. *)
Fixpoint call_TimerFn (f : TimerFn) (this : JsVal) (arguments : list JsVal)
    : JS JsVal :=
  match f with
  | native_setTimeout => native_timer CallSetTimeout this arguments
  | native_setInterval => native_timer CallSetInterval this arguments
  | setTimeout_wrapper original_setTimeout =>
    let function_ := argument arguments 0 in
    let timeout := argument arguments 1 in
    p ← get;
    modify (with_set_timeouts
              (set_timeouts p ++ [ {| tr_function := function_;
                                      tr_timeout := timeout |} ]));;
    call_TimerFn original_setTimeout this arguments;;
    mret VUndefined
  | setInterval_wrapper original_setInterval =>
    let function_ := argument arguments 0 in
    let timeout := argument arguments 1 in
    p ← get;
    modify (with_set_intervals
              (set_intervals p ++ [ {| tr_function := function_;
                                       tr_timeout := timeout |} ]));;
    call_TimerFn original_setInterval this arguments;;
    mret VUndefined
  end.

Section Interception.

Variable getSelector : EventTarget -> string.

(** [storeEventListenerData(element, type, listener, useCapture)]. The
    object literal is evaluated field by field; [element.tagName] is
    undefined on the window and on the document, and calling
    [toLowerCase] on it raises. *)
Definition storeEventListenerData (element : EventTarget)
    (type listener useCapture : JsVal) : JS unit :=
  let selector := getSelector element in
  match target_tagName element with
  | None =>
    throw (TypeError "Cannot read property 'toLowerCase' of undefined")
  | Some tagName =>
    p ← get;
    modify (with_event_listeners
              (event_listeners p ++
                 [ {| lr_tag_name := JsString.toLowerCase tagName;
                      lr_node_type := target_nodeType element;
                      lr_selector := selector;
                      lr_event_type := type;
                      lr_use_capture := useCapture |} ]))
  end.

(** Calling a value of one of the [addEventListener] slots with
    this-binding [this]. The document wrapper passes the free identifier
    [event], which resolves to the global [window.event]. *)
Fixpoint call_ListenerFn (f : ListenerFn) (this : EventTarget)
    (arguments : list JsVal) : JS JsVal :=
  let type := argument arguments 0 in
  let listener := argument arguments 1 in
  let useCapture := argument arguments 2 in
  match f with
  | native_addEventListener => native_listener this arguments
  | window_addEventListener_wrapper original_window_addEventListener =>
    storeEventListenerData TWindow type listener useCapture;;
    call_ListenerFn original_window_addEventListener TWindow arguments;;
    mret VUndefined
  | document_addEventListener_wrapper original_document_addEventListener =>
    p ← get;
    let event := window_event p in
    storeEventListenerData TDocument event listener useCapture;;
    call_ListenerFn original_document_addEventListener TDocument arguments;;
    mret VUndefined
  | node_addEventListener_wrapper original_node_addEventListener =>
    storeEventListenerData this type listener useCapture;;
    call_ListenerFn original_node_addEventListener this arguments;;
    mret VUndefined
  end.

(** Property lookup [target.addEventListener]: an own property of the
    window or of the document, else the one of [Node.prototype]. *)
Definition lookup_addEventListener (p : Page) (target : EventTarget)
    : ListenerFn :=
  match target with
  | TWindow => window_addEventListener p
  | TDocument =>
    default (Node_prototype_addEventListener p) (document_addEventListener p)
  | TElement _ => Node_prototype_addEventListener p
  end.

(** What page script does: [this.setTimeout(...arguments)],
    [this.setInterval(...arguments)], [target.addEventListener(...arguments)]. *)
Definition setTimeout (this : JsVal) (arguments : list JsVal) : JS JsVal :=
  p ← get; call_TimerFn (window_setTimeout p) this arguments.


Definition addEventListener (target : EventTarget) (arguments : list JsVal)
    : JS JsVal :=
  p ← get; call_ListenerFn (lookup_addEventListener p target) target arguments.

(** *** Installing the wrappers *)

Definition override_setTimeout : JS unit :=
  p ← get;
  let original_setTimeout := window_setTimeout p in
  modify (with_window_setTimeout (setTimeout_wrapper original_setTimeout)).

Definition override_setInterval : JS unit :=
  p ← get;
  let original_setInterval := window_setInterval p in
  modify (with_window_setInterval (setInterval_wrapper original_setInterval)).

Definition override_addEventListener : JS unit :=
  p ← get;
  let original_window_addEventListener := window_addEventListener p in
  modify (with_window_addEventListener
            (window_addEventListener_wrapper original_window_addEventListener));;
  p ← get;
  let original_document_addEventListener := lookup_addEventListener p TDocument in
  modify (with_document_addEventListener
            (document_addEventListener_wrapper original_document_addEventListener));;
  p ← get;
  let original_node_addEventListener := Node_prototype_addEventListener p in
  modify (with_Node_prototype_addEventListener
            (node_addEventListener_wrapper original_node_addEventListener)).

Definition initialize : JS JsVal :=
  p ← get;
  if initialized p then mret VUndefined
  else
    modify (with_initialized true);;
    override_addEventListener;;
    override_setTimeout;;
    override_setInterval;;
    mret VUndefined.

(** *** Dispatch *)

Definition dispatchCustomEvent (selector event_type : string) : JS bool :=
  p ← get;
  let element := querySelector p selector in
  match element with
  | None => mret false
  | Some target =>
    if elementIsHidden element then mret false
    else
      let event := createEvent in
      let event := initEvent event event_type true true in
      let event := set_altKey (VBool false) event in
      let event := set_shiftKey (VBool false) event in
      let event := set_ctrlKey (VBool false) event in
      let event := set_metaKey (VBool false) event in
      let event := set_view (VTarget TWindow) event in
      modify (with_dispatched (target, event));;
      mret true
  end.

(** [getElementsWithEventHandlers(event_filter)] on the page's DOM. *)
Definition getElementsWithEventHandlers (event_filter : list string)
    (p : Page) : list EventData :=
  getElementsWithEventHandlers_loop getSelector (all_elements p) event_filter.

End Interception.

(** ** Reference notions used in the statements *)

(** Field-by-field equality of descriptors. *)
Definition same_fields (e e' : EventData) : Prop :=
  tag_name e = tag_name e' ∧ node_type e = node_type e' ∧
  selector e = selector e' ∧ event_type e = event_type e' ∧
  handler e = handler e'.


(** An attribute is an inline handler when its name starts with "on". *)
Definition is_handler_attribute (attr : Attr) : bool :=
  JsString.startsWith (nodeName attr) "on".

(** The descriptor that attribute extraction builds for one attribute. *)
Definition descriptor_of (getSelector : EventTarget -> string)
    (tag_name : string) (element : Element) (attr : Attr) : EventData :=
  {| tag_name := tag_name;
     node_type := nodeType (data element);
     selector := getSelector (TElement element);
     event_type := JsString.substr (nodeName attr) 2;
     handler := nodeValue attr |}.

(** The ancestors strictly between an element and the document. *)
Definition strict_ancestors (element : Element) : list Element :=
  match parentNode element with
  | ParentElement q => getAncestors q
  | ParentDocument => []
  | ParentNull => []
  end.

(** The events of the nodes in [nodes], each found by attribute
    extraction on that node and re-scoped to [element]. *)
Definition rescoped_events (getSelector : EventTarget -> string)
    (tag_name : string) (element : Element) (nodes : list Element)
    : list EventData :=
  List.flat_map
    (fun node =>
       List.map (rescope getSelector tag_name element)
         (extractEventsFromAttributes getSelector
            (JsString.toLowerCase (tagName (data node))) node))
    nodes.

(** Inheritance restricted to the strict ancestors. *)
Definition inherited_from_strict_ancestors (getSelector : EventTarget -> string)
    (tag_name : string) (element : Element) : list EventData :=
  if JsString.includes elements_allowed_to_inherit_events_from_ancestors tag_name
  then rescoped_events getSelector tag_name element (strict_ancestors element)
  else [].

(** The query with no filtering step at all: the merged events of every
    element that is not hidden, in document order. *)
Definition unfiltered_events (getSelector : EventTarget -> string)
    (all_elements : list Element) : list EventData :=
  List.flat_map (element_events_of getSelector)
    (List.filter (fun element => negb (elementIsHidden (Some element)))
                 all_elements).

(** A wrapper that runs [m] and has no [return] statement. *)
Definition discard_result {A} (m : JS A) : JS JsVal :=
  fun p =>
    match m p with
    | (Normal _, p') => (Normal VUndefined, p')
    | (Thrown e, p') => (Thrown e, p')
    end.

(** A timer wrapper hands the result of the function it replaced back to
    its caller. *)
Definition timer_wrapper_returns_original_result : Prop :=
  ∀ (original : TimerFn) (this : JsVal) (arguments : list JsVal) (p : Page),
    (call_TimerFn (setTimeout_wrapper original) this arguments p).1
    = (call_TimerFn original this arguments
         (with_set_timeouts
            (set_timeouts p ++ [ {| tr_function := argument arguments 0;
                                    tr_timeout := argument arguments 1 |} ])
            p)).1.

(** ** A concrete page *)

(** A stand-in selector generator for running the analyzer on concrete
    pages: the chain of lower-case tag names from the root. *)
Fixpoint sample_selector_of (e : Element) : string :=
  match e with
  | mkElement d p =>
    match p with
    | ParentElement q =>
      sample_selector_of q +:+ " > " +:+ JsString.toLowerCase (tagName d)
    | ParentDocument => JsString.toLowerCase (tagName d)
    | ParentNull => JsString.toLowerCase (tagName d)
    end
  end.

Definition sample_getSelector (t : EventTarget) : string :=
  match t with
  | TWindow => ""
  | TDocument => ""
  | TElement e => sample_selector_of e
  end.

Definition visible (tag : string) (attrs : list Attr) : ElementData :=
  {| tagName := tag; nodeType := 1; attributes := attrs;
     offsetWidth := Some 800; offsetHeight := Some 600 |}.

Definition html_element : Element :=
  mkElement (visible "HTML" []) ParentDocument.

Definition body_element : Element :=
  mkElement (visible "BODY" []) (ParentElement html_element).

(** [<div onclick="x()">] *)
Definition div_onclick : Element :=
  mkElement (visible "DIV" [ {| nodeName := "onclick"; nodeValue := "x()" |} ])
            (ParentElement body_element).

(** [<div xxclick="y()">] *)
Definition div_xxclick : Element :=
  mkElement (visible "DIV" [ {| nodeName := "xxclick"; nodeValue := "y()" |} ])
            (ParentElement body_element).

(** [<a onclick="go()"><button></button></a>] *)
Definition a_onclick : Element :=
  mkElement (visible "A" [ {| nodeName := "onclick"; nodeValue := "go()" |} ])
            (ParentElement body_element).

Definition button_in_a : Element :=
  mkElement (visible "BUTTON" []) (ParentElement a_onclick).

(** [<span style="display:none">]: laid out with no box. *)
Definition span_hidden : Element :=
  mkElement {| tagName := "SPAN"; nodeType := 1;
               attributes := [ {| nodeName := "onclick"; nodeValue := "h()" |} ];
               offsetWidth := Some 0; offsetHeight := Some 0 |}
            (ParentElement body_element).

Definition sample_querySelector (s : string) : option Element :=
  if String.eqb s "html > body > div" then Some div_onclick
  else if String.eqb s "html > body > span" then Some span_hidden
  else None.

Definition sample_page : Page :=
  fresh_page [html_element; body_element; div_onclick; a_onclick; button_in_a;
              span_hidden]
             sample_querySelector VUndefined.

(** The sample page after the analyzer script has run [initialize]. *)
Definition initialized_sample_page : Page := (initialize sample_page).2.
(** ** Further notions used in the statements *)

(** [getAncestors(elem, selector)] with its second parameter: a selector
    that is null ([None]) or the empty string is falsy and every node of
    the walk is kept; otherwise only the nodes that match.
    [Element.prototype.matches] belongs to the platform and is a
    parameter. *)
Definition selector_truthy (selector : option string) : bool :=
  match selector with
  | None => false
  | Some s => negb (String.eqb s "")
  end.

Fixpoint getAncestors_matching (matches : Element -> string -> bool)
    (elem : Element) (selector : option string) : list Element :=
  match elem with
  | mkElement _ p =>
    let parents :=
      match p with
      | ParentElement q => getAncestors_matching matches q selector
      | ParentDocument => []
      | ParentNull => []
      end in
    if selector_truthy selector
    then
      if matches elem (default EmptyString selector)
      then elem :: parents
      else parents
    else elem :: parents
  end.

(** How many [setTimeout] (resp. [setInterval]) wrappers a function value
    is made of. *)
Fixpoint setTimeout_layers (f : TimerFn) : nat :=
  match f with
  | native_setTimeout => 0
  | native_setInterval => 0
  | setTimeout_wrapper original => S (setTimeout_layers original)
  | setInterval_wrapper original => setTimeout_layers original
  end.

Fixpoint setInterval_layers (f : TimerFn) : nat :=
  match f with
  | native_setTimeout => 0
  | native_setInterval => 0
  | setTimeout_wrapper original => setInterval_layers original
  | setInterval_wrapper original => S (setInterval_layers original)
  end.

(** [q] is [p] after page script ran: the flag, the five patched slots and
    the DOM are the same, and each of the five logs of [p] is a prefix of
    the one of [q]. *)
Definition page_extends (p q : Page) : Prop :=
  initialized q = initialized p
  ∧ window_setTimeout q = window_setTimeout p
  ∧ window_setInterval q = window_setInterval p
  ∧ window_addEventListener q = window_addEventListener p
  ∧ document_addEventListener q = document_addEventListener p
  ∧ Node_prototype_addEventListener q = Node_prototype_addEventListener p
  ∧ window_event q = window_event p
  ∧ all_elements q = all_elements p
  ∧ querySelector q = querySelector p
  ∧ set_timeouts p `prefix_of` set_timeouts q
  ∧ set_intervals p `prefix_of` set_intervals q
  ∧ event_listeners p `prefix_of` event_listeners q
  ∧ native_calls p `prefix_of` native_calls q
  ∧ dispatched p `prefix_of` dispatched q.

(** The final page of a computation. *)
Definition page_after {A} (m : JS A) (p : Page) : Page := (m p).2.

(** The page after the analyzer script was injected [n] times: each
    injection ends with a call of [initialize]. *)
Definition inject (n : nat) (p : Page) : Page :=
  Nat.iter n (page_after initialize) p.

(** The record that a timer wrapper pushes for [arguments]. *)
Definition timer_record (arguments : list JsVal) : TimerRecord :=
  {| tr_function := argument arguments 0; tr_timeout := argument arguments 1 |}.

(** The record that [storeEventListenerData] pushes for a registration
    on an element. *)
Definition listener_record (getSelector : EventTarget -> string)
    (element : Element) (arguments : list JsVal) : ListenerRecord :=
  {| lr_tag_name := JsString.toLowerCase (tagName (data element));
     lr_node_type := VNum (nodeType (data element));
     lr_selector := getSelector (TElement element);
     lr_event_type := argument arguments 0;
     lr_use_capture := argument arguments 2 |}.

(** [<form onsubmit="s()"><div></div></form>] *)
Definition form_onsubmit : Element :=
  mkElement (visible "FORM" [ {| nodeName := "onsubmit"; nodeValue := "s()" |} ])
            (ParentElement body_element).

Definition div_in_form : Element :=
  mkElement (visible "DIV" []) (ParentElement form_onsubmit).

(** Every event name that occurs in the validity matrix. *)
Definition known_event_types : list string :=
  [ "click"; "dblclick"; "mousedown"; "mousemove"; "mouseout"; "mouseover";
    "mouseup"; "load"; "focus"; "blur"; "submit"; "reset"; "select";
    "change"; "keydown"; "keypress"; "keyup"; "input" ]%string.

(** The descriptor found on [node] for [attr] and scoped to [element]. *)
Definition scoped_descriptor (getSelector : EventTarget -> string)
    (tag_name : string) (element : Element) (attr : Attr) : EventData :=
  {| tag_name := tag_name;
     node_type := nodeType (data element);
     selector := getSelector (TElement element);
     event_type := JsString.substr (nodeName attr) 2;
     handler := nodeValue attr |}.

(** The five slots hold one wrapper each around the native function, as
    after the first [initialize] on a fresh page. *)
Definition instrumented (p : Page) : Prop :=
  initialized p = true
  ∧ window_setTimeout p = setTimeout_wrapper native_setTimeout
  ∧ window_setInterval p = setInterval_wrapper native_setInterval
  ∧ window_addEventListener p
    = window_addEventListener_wrapper native_addEventListener
  ∧ document_addEventListener p
    = Some (document_addEventListener_wrapper native_addEventListener)
  ∧ Node_prototype_addEventListener p
    = node_addEventListener_wrapper native_addEventListener.

(** [<div id="x">] *)
Definition div_with_id : Element :=
  mkElement (visible "DIV" [ {| nodeName := "id"; nodeValue := "x" |} ])
            (ParentElement body_element).

(** The descriptor of the sample page's link handler, scoped to the button
    inside the link. *)
Definition button_click : EventData :=
  {| tag_name := "button"; node_type := 1;
     selector := "html > body > a > button";
     event_type := "click"; handler := "go()" |}.

(** * Properties *)

(** ** Strings *)

Lemma string_app_cons (c : ascii) (s r : string) :
  String c s +:+ r = String c (s +:+ r).
Proof. reflexivity. Qed.

Lemma string_app_nil (r : string) : EmptyString +:+ r = r.
Proof. reflexivity. Qed.

Lemma string_app_assoc (a b c : string) : (a +:+ b) +:+ c = a +:+ (b +:+ c).
Proof.
  induction a as [|x a IH]; [reflexivity|].
  rewrite !string_app_cons. by rewrite IH.
Qed.

(** ** JSON quoting loses nothing *)

Module JsonFacts.
Import JsString Json.

Lemma unquote_quote_char (c : ascii) (r : string) :
  unquote_char (QuoteJSONChar c +:+ r) = Some (c, r).
Proof.
  destruct c as [[] [] [] [] [] [] [] []]; reflexivity.
Qed.

Lemma unquote_closing (r : string) :
  unquote_char (String dquote r) = None.
Proof. reflexivity. Qed.

(** A quoted body followed by the closing quote determines the body and
    what follows. *)
Lemma QuoteJSONBody_inj (s s' r r' : string) :
  QuoteJSONBody s +:+ String dquote r = QuoteJSONBody s' +:+ String dquote r' →
  s = s' ∧ r = r'.
Proof.
  revert s'. induction s as [|c s IH]; intros [|c' s'] H; cbn [QuoteJSONBody] in H.
  - rewrite !string_app_nil in H. by injection H.
  - rewrite string_app_nil, string_app_assoc in H.
    apply (f_equal unquote_char) in H.
    by rewrite unquote_closing, unquote_quote_char in H.
  - rewrite string_app_nil, string_app_assoc in H.
    apply (f_equal unquote_char) in H.
    by rewrite unquote_closing, unquote_quote_char in H.
  - rewrite !string_app_assoc in H.
    apply (f_equal unquote_char) in H.
    rewrite !unquote_quote_char in H.
    injection H as -> H. by destruct (IH _ H) as [-> ->].
Qed.

Lemma stringify_string_inj (s s' r r' : string) :
  stringify_string s +:+ r = stringify_string s' +:+ r' →
  s = s' ∧ r = r'.
Proof.
  unfold stringify_string. rewrite !string_app_cons, !string_app_assoc.
  intros H. injection H as H.
  rewrite !string_app_cons, !string_app_nil in H.
  by apply QuoteJSONBody_inj in H.
Qed.

Lemma string_of_uint_inj (d d' : Decimal.uint) (r r' : string) :
  NilEmpty.string_of_uint d +:+ String "," r
  = NilEmpty.string_of_uint d' +:+ String "," r' →
  d = d' ∧ r = r'.
Proof.
  revert d'. induction d as [|d IH|d IH|d IH|d IH|d IH|d IH|d IH|d IH|d IH|d IH];
    intros [|d'|d'|d'|d'|d'|d'|d'|d'|d'|d'] H;
    cbn [NilEmpty.string_of_uint] in H;
    rewrite ?string_app_cons, ?string_app_nil in H;
    try discriminate H;
    try (injection H as H; destruct (IH _ H) as [-> ->]; done).
  by injection H.
Qed.

Lemma stringify_int_inj (z z' : Z) (r r' : string) :
  stringify_int z +:+ String "," r = stringify_int z' +:+ String "," r' →
  z = z' ∧ r = r'.
Proof.
  unfold stringify_int. intros H.
  assert (Z.to_int z = Z.to_int z' ∧ r = r') as [Hz ->].
  { destruct (Z.to_int z) as [d|d], (Z.to_int z') as [d'|d'];
      cbn [NilEmpty.string_of_int] in H; rewrite ?string_app_cons in H.
    - by destruct (string_of_uint_inj _ _ _ _ H) as [-> ->].
    - destruct d; cbn [NilEmpty.string_of_uint] in H;
        rewrite ?string_app_cons, ?string_app_nil in H; discriminate H.
    - destruct d'; cbn [NilEmpty.string_of_uint] in H;
        rewrite ?string_app_cons, ?string_app_nil in H; discriminate H.
    - injection H as H. by destruct (string_of_uint_inj _ _ _ _ H) as [-> ->]. }
  split; [|done]. by apply DecimalZ.to_int_inj.
Qed.

End JsonFacts.

(** Two descriptors serialize to the same text only when every field
    matches. *)
Lemma JSON_stringify_inj (e e' : EventData) :
  JSON_stringify e = JSON_stringify e' → e = e'.
Proof.
  destruct e as [t n s v h], e' as [t' n' s' v' h'].
  unfold JSON_stringify; cbn [tag_name node_type selector event_type handler].
  intros H.
  repeat first
    [ apply String.app_inj in H
    | apply JsonFacts.stringify_string_inj in H as [? H]
    | rewrite string_app_cons, string_app_nil in H;
      apply JsonFacts.stringify_int_inj in H as [? H]
    | rewrite string_app_cons, string_app_nil in H; injection H as H ].
  by subst.
Qed.

(** ** Deduplication *)

Lemma same_fields_eq (e e' : EventData) : same_fields e e' ↔ e = e'.
Proof.
  split; [|intros ->; by repeat split].
  destruct e, e'; unfold same_fields; simpl. by intros (-> & -> & -> & -> & ->).
Qed.

Lemma splice_equal_filter (x : EventData) (rest : list EventData) :
  splice_equal (JSON_stringify x) rest = filter (λ y, y ≠ x) rest.
Proof.
  induction rest as [|y rest IH]; [reflexivity|]. cbn [splice_equal].
  destruct (String.eqb_spec (JSON_stringify x) (JSON_stringify y)) as [Heq|Hne].
  - apply JSON_stringify_inj in Heq as <-.
    rewrite filter_cons_False by (intros H; by apply H). exact IH.
  - rewrite filter_cons_True by (intros ->; by apply Hne). by rewrite IH.
Qed.

Lemma objectArrayUniq_loop_spec (fuel : nat) (a : list EventData) :
  (length a ≤ fuel)%nat →
  NoDup (objectArrayUniq_loop fuel a)
  ∧ (∀ e, e ∈ objectArrayUniq_loop fuel a ↔ e ∈ a)
  ∧ objectArrayUniq_loop fuel a `sublist_of` a.
Proof.
  revert a. induction fuel as [|fuel IH]; intros [|x rest] Hlen;
    cbn [objectArrayUniq_loop]; simpl in Hlen; try lia.
  - repeat split; [constructor | done..].
  - repeat split; [constructor | done..].
  - rewrite splice_equal_filter.
    destruct (IH (filter (λ y, y ≠ x) rest)) as (Hnd & Hin & Hsub).
    { pose proof (length_filter (λ y, y ≠ x) rest). lia. }
    split; [|split].
    + constructor; [|exact Hnd].
      rewrite Hin, list_elem_of_filter. by intros [H _].
    + intros e. rewrite !elem_of_cons, Hin, list_elem_of_filter.
      destruct (decide (e = x)); tauto.
    + apply sublist_skip. etrans; [exact Hsub|]. apply sublist_filter.
Qed.

(** The loop does not depend on the fuel once it covers the array. *)
Lemma objectArrayUniq_loop_fuel (fuel fuel' : nat) (a : list EventData) :
  (length a ≤ fuel)%nat → (length a ≤ fuel')%nat →
  objectArrayUniq_loop fuel a = objectArrayUniq_loop fuel' a.
Proof.
  revert fuel' a. induction fuel as [|fuel IH]; intros [|fuel'] [|x rest] H H';
    simpl in H, H'; try lia; try reflexivity.
  cbn [objectArrayUniq_loop]. f_equal. rewrite splice_equal_filter.
  pose proof (length_filter (λ y, y ≠ x) rest). apply IH; lia.
Qed.

(** The array unfolds as the two nested loops do: the first entry stays,
    its later copies go, and the rest is treated the same way. *)
Lemma objectArrayUniq_cons (x : EventData) (rest : list EventData) :
  objectArrayUniq (x :: rest) = x :: objectArrayUniq (filter (λ y, y ≠ x) rest).
Proof.
  unfold objectArrayUniq. cbn [length objectArrayUniq_loop].
  rewrite splice_equal_filter. f_equal.
  pose proof (length_filter (λ y, y ≠ x) rest).
  apply objectArrayUniq_loop_fuel; lia.
Qed.

Lemma objectArrayUniq_NoDup_id (a : list EventData) :
  NoDup a → objectArrayUniq a = a.
Proof.
  induction 1 as [|x rest Hx Hnd IH]; [reflexivity|].
  rewrite objectArrayUniq_cons.
  assert (filter (λ y, y ≠ x) rest = rest) as ->; [|by rewrite IH].
  clear -Hx. induction rest as [|y rest IH]; [reflexivity|].
  apply not_elem_of_cons in Hx as [Hne Hx].
  rewrite filter_cons_True by done. by rewrite IH.
Qed.

(** C7. [objectArrayUniq] deduplicates by equality of all fields: in its
    output no two positions hold descriptors whose fields all match, every
    descriptor of the input is still present (so two entries that differ in
    some field both remain), and the output is the input with entries
    removed, in the original order. *)
Theorem objectArrayUniq_structural_dedup (array : list EventData) :
  (∀ i j e e',
      objectArrayUniq array !! i = Some e →
      objectArrayUniq array !! j = Some e' →
      same_fields e e' → i = j)
  ∧ (∀ e, e ∈ array ↔ e ∈ objectArrayUniq array)
  ∧ objectArrayUniq array `sublist_of` array.
Proof.
  destruct (objectArrayUniq_loop_spec (length array) array) as (Hnd & Hin & Hsub);
    [lia|].
  fold (objectArrayUniq array) in Hnd, Hin, Hsub.
  split; [|split; [|exact Hsub]].
  - intros i j e e' Hi Hj Hsame. apply same_fields_eq in Hsame as <-.
    eapply NoDup_lookup; eauto.
  - intros e. symmetry. apply Hin.
Qed.

(** ** The validity matrix *)

Lemma includes_spec (a : list string) (x : string) :
  JsString.includes a x = true <-> x ∈ a.
Proof.
  induction a as [|y r IH]; simpl.
  - split; [discriminate | intros H; inversion H].
  - destruct (String.eqb_spec y x) as [->|Hne].
    + split; [intros _; left | reflexivity].
    + rewrite IH. split; [intros H; by right|].
      intros H. apply elem_of_cons in H as [->|H]; [congruence | exact H].
Qed.

(** C6. [eventIsValidForTagName] answers true exactly when the event name
    is universally valid, or the tag name has a registered allow-list that
    contains the event name; in every other case the answer is false. *)
Theorem eventIsValidForTagName_spec (tag_name attr_name : string) :
  (eventIsValidForTagName tag_name attr_name = true ↔
     attr_name ∈ universally_valid_events
     ∨ ∃ events, valid_events_per_element !! tag_name = Some events
                 ∧ attr_name ∈ events)
  ∧ (eventIsValidForTagName tag_name attr_name = false ↔
     (attr_name ∉ universally_valid_events)
     ∧ ∀ events, valid_events_per_element !! tag_name = Some events →
                 attr_name ∉ events).
Proof.
  unfold eventIsValidForTagName.
  destruct (JsString.includes universally_valid_events attr_name) eqn:Hu.
  - apply includes_spec in Hu. split; split; try done; [by left | by intros [? _]].
  - assert (Hnu : attr_name ∉ universally_valid_events).
    { intros H. apply includes_spec in H. congruence. }
    destruct (valid_events_per_element !! tag_name) as [events|] eqn:Ht.
    + destruct (JsString.includes events attr_name) eqn:He.
      * apply includes_spec in He. split; split; try done.
        -- intros _. right. by exists events.
        -- intros [_ H]. by destruct (H events).
      * assert (Hne : attr_name ∉ events).
        { intros H. apply includes_spec in H. congruence. }
        split; split; try done.
        -- intros [H|(ev & Hev & Hin)]; [done|]. by injection Hev as <-.
        -- intros _. split; [done|]. by intros ev [= <-].
    + split; split; try done.
      intros [H|(ev & Hev & _)]; [done | discriminate].
Qed.

(** ** Attribute extraction *)

Section ExtractionFacts.

Variable getSelector : EventTarget -> string.

Lemma extractEventsFromAttributes_loop_spec tag_name element attrs :
  extractEventsFromAttributes_loop tag_name element
    (getSelector (TElement element)) attrs
  = List.map (descriptor_of getSelector tag_name element)
      (List.filter
         (fun attr => eventIsValidForTagName tag_name
                        (JsString.substr (nodeName attr) 2))
         attrs).
Proof.
  induction attrs as [|attr rest IH]; [reflexivity|].
  cbn [extractEventsFromAttributes_loop List.filter].
  destruct (eventIsValidForTagName tag_name _); cbn [negb List.map];
    by rewrite IH.
Qed.

(** Attribute extraction keeps exactly the attributes whose name, less
    its first two characters, is valid for the given tag name, in
    attribute order; each gives a descriptor with the attribute's value
    as handler source. *)
Lemma extractEventsFromAttributes_spec tag_name element :
  extractEventsFromAttributes getSelector tag_name element
  = List.map (descriptor_of getSelector tag_name element)
      (List.filter
         (fun attr => eventIsValidForTagName tag_name
                        (JsString.substr (nodeName attr) 2))
         (attributes (data element))).
Proof. apply extractEventsFromAttributes_loop_spec. Qed.

(** ** Inheritance *)

Lemma extractInheritedEvents_loop_spec tag_name element ancestors :
  extractInheritedEvents_loop getSelector tag_name element ancestors
  = rescoped_events getSelector tag_name element ancestors.
Proof.
  induction ancestors as [|a rest IH]; [reflexivity|].
  cbn [extractInheritedEvents_loop]. unfold rescoped_events.
  cbn [List.flat_map]. by rewrite IH.
Qed.

Lemma getAncestors_self (element : Element) :
  getAncestors element = element :: strict_ancestors element.
Proof. by destruct element as [d [| |q]]. Qed.

(** The walk of [extractInheritedEvents] covers the element itself and
    then its strict ancestors. *)
Lemma extractInheritedEvents_spec tag_name element :
  extractInheritedEvents getSelector tag_name element
  = if JsString.includes elements_allowed_to_inherit_events_from_ancestors
         tag_name
    then rescoped_events getSelector tag_name element
           (element :: strict_ancestors element)
    else [].
Proof.
  unfold extractInheritedEvents.
  destruct (JsString.includes _ tag_name); cbn [negb]; [|reflexivity].
  by rewrite extractInheritedEvents_loop_spec, getAncestors_self.
Qed.

End ExtractionFacts.

(** C5. Attribute extraction strips two characters and validates the
    remainder, but it does not look at what it strips: on
    [<div xxclick="y()">] the attribute is not an inline handler, and
    extraction still yields a click descriptor with handler source
    [y()]. *)
Theorem extractEventsFromAttributes_non_handler_attribute :
  is_handler_attribute {| nodeName := "xxclick"; nodeValue := "y()" |} = false
  ∧ attributes (data div_xxclick)
    = [ {| nodeName := "xxclick"; nodeValue := "y()" |} ]
  ∧ extractEventsFromAttributes sample_getSelector "div" div_xxclick
    = [ {| tag_name := "div"; node_type := 1;
           selector := "html > body > div";
           event_type := "click"; handler := "y()" |} ].
Proof. repeat split; reflexivity. Qed.

(** C4. The walk of [extractInheritedEvents] starts at the element itself:
    on [<div onclick="x()">] under [body], whose strict ancestors carry no
    attribute, it returns the div's own click handler as inherited, where
    extraction on the strict ancestors gives nothing. *)
Theorem extractInheritedEvents_includes_own_events :
  strict_ancestors div_onclick = [body_element; html_element]
  ∧ inherited_from_strict_ancestors sample_getSelector "div" div_onclick = []
  ∧ extractInheritedEvents sample_getSelector "div" div_onclick
    = [ {| tag_name := "div"; node_type := 1;
           selector := "html > body > div";
           event_type := "click"; handler := "x()" |} ].
Proof. repeat split; reflexivity. Qed.

(** ** The document-wide query *)

Lemma filterByEventName_nil (element_events : list EventData) :
  filterByEventName element_events [] = element_events.
Proof. reflexivity. Qed.

Lemma filterByEventName_cons (element_events : list EventData)
    (event_name : string) (event_filter : list string) :
  filterByEventName element_events (event_name :: event_filter)
  = List.filter
      (fun e => bool_decide (event_type e ∈ event_name :: event_filter))
      element_events.
Proof.
  unfold filterByEventName. cbn [length Nat.eqb].
  apply List.filter_ext. intros e.
  destruct (JsString.includes _ _) eqn:H; symmetry.
  - apply bool_decide_eq_true. by apply includes_spec.
  - apply bool_decide_eq_false. intros Hin. apply includes_spec in Hin. congruence.
Qed.

Lemma filter_flat_map {A B} (f : B → bool) (g : A → list B) (l : list A) :
  List.filter f (List.flat_map g l)
  = List.flat_map (fun x => List.filter f (g x)) l.
Proof.
  induction l as [|x l IH]; [reflexivity|].
  cbn [List.flat_map]. by rewrite List.filter_app, IH.
Qed.

Lemma objectArrayUniq_app (l1 l2 : list EventData) :
  objectArrayUniq (l1 ++ l2)
  = objectArrayUniq l1 ++ objectArrayUniq (filter (λ x, x ∉ l1) l2).
Proof.
  remember (length l1) as n eqn:Hn. revert l1 l2 Hn.
  induction n as [n IH] using lt_wf_ind. intros [|x l1] l2 Hn.
  - assert (filter (λ x : EventData, x ∉ []) l2 = l2) as ->; [|reflexivity].
    clear. induction l2 as [|y l2 IH2]; [reflexivity|].
    rewrite filter_cons_True by (intros H; inversion H). by rewrite IH2.
  - cbn [app]. rewrite !objectArrayUniq_cons, filter_app. cbn [app]. f_equal.
    pose proof (length_filter (λ y, y ≠ x) l1) as Hlen. simpl in Hn.
    rewrite (IH (length (filter (λ y, y ≠ x) l1))) by (done || lia).
    f_equal. f_equal. rewrite list_filter_filter. apply list_filter_iff.
    intros y. rewrite list_elem_of_filter, not_elem_of_cons. tauto.
Qed.

Section QueryFacts.

Variable getSelector : EventTarget -> string.

Lemma getElementsWithEventHandlers_loop_spec all_elements event_filter :
  getElementsWithEventHandlers_loop getSelector all_elements event_filter
  = List.flat_map
      (fun element =>
         filterByEventName (element_events_of getSelector element) event_filter)
      (List.filter (fun element => negb (elementIsHidden (Some element)))
                   all_elements).
Proof.
  induction all_elements as [|element rest IH]; [reflexivity|].
  cbn [getElementsWithEventHandlers_loop List.filter].
  destruct (elementIsHidden (Some element)); cbn [negb]; [exact IH|].
  cbn [List.flat_map]. rewrite <- IH.
  destruct (element_events_of getSelector element) as [|e l] eqn:He;
    cbn [length Nat.eqb]; [|reflexivity].
  by destruct event_filter.
Qed.

Lemma rescope_own_events tag_name element :
  List.map (rescope getSelector tag_name element)
    (extractEventsFromAttributes getSelector tag_name element)
  = extractEventsFromAttributes getSelector tag_name element.
Proof.
  rewrite extractEventsFromAttributes_spec, List.map_map.
  by apply List.map_ext.
Qed.

Lemma filter_not_elem_of_self (a : list EventData) :
  filter (λ e, e ∉ a) a = [].
Proof.
  assert (H : ∀ l, (∀ e, e ∈ l → e ∈ a) → filter (λ e, e ∉ a) l = []).
  { induction l as [|x l IH]; intros Hl; [reflexivity|].
    rewrite filter_cons_False.
    - apply IH. intros e He. apply Hl. by right.
    - intros Hx. apply Hx, Hl. by left. }
  by apply H.
Qed.

(** In the query the element's own events, found a second time by the
    inheritance walk, merge away: the events of an element are its
    attribute events followed by those of its strict ancestors. *)
Lemma element_events_of_strict_ancestors element :
  let tag_name := JsString.toLowerCase (tagName (data element)) in
  element_events_of getSelector element
  = objectArrayUniq
      (extractEventsFromAttributes getSelector tag_name element
       ++ inherited_from_strict_ancestors getSelector tag_name element).
Proof.
  cbv zeta. unfold element_events_of, inherited_from_strict_ancestors.
  rewrite extractInheritedEvents_spec. cbn [app].
  destruct (JsString.includes _ _); [|reflexivity].
  unfold rescoped_events at 1. cbn [List.flat_map].
  fold (rescoped_events getSelector
          (JsString.toLowerCase (tagName (data element))) element
          (strict_ancestors element)).
  rewrite rescope_own_events.
  rewrite !objectArrayUniq_app, filter_app, filter_not_elem_of_self.
  reflexivity.
Qed.

(** C9. With an empty filter the query returns what a query with no
    filtering step returns; with a non-empty filter it returns exactly
    the descriptors of that sequence whose event type is in the filter,
    in the same order. That sequence follows document order, takes
    nothing from hidden elements, and within one element lists the
    attribute-extracted descriptors before the inherited ones. *)
Theorem getElementsWithEventHandlers_filter_spec (p : Page)
    (event_name : string) (event_filter : list string) :
  getElementsWithEventHandlers getSelector [] p
  = unfiltered_events getSelector (all_elements p)
  ∧ getElementsWithEventHandlers getSelector (event_name :: event_filter) p
    = List.filter
        (fun e => bool_decide (event_type e ∈ event_name :: event_filter))
        (unfiltered_events getSelector (all_elements p))
  ∧ unfiltered_events getSelector (all_elements p)
    = List.flat_map (element_events_of getSelector)
        (List.filter (fun element => negb (elementIsHidden (Some element)))
                     (all_elements p))
  ∧ ∀ element,
      let tag_name := JsString.toLowerCase (tagName (data element)) in
      let attribute_events :=
        extractEventsFromAttributes getSelector tag_name element in
      let inherited_events :=
        extractInheritedEvents getSelector tag_name element in
      element_events_of getSelector element
      = objectArrayUniq attribute_events
        ++ objectArrayUniq (filter (λ e, e ∉ attribute_events) inherited_events).
Proof.
  unfold getElementsWithEventHandlers.
  rewrite !getElementsWithEventHandlers_loop_spec. unfold unfiltered_events.
  split; [|split; [|split]].
  - apply List.flat_map_ext. intros element. apply filterByEventName_nil.
  - rewrite filter_flat_map. apply List.flat_map_ext. intros element.
    apply filterByEventName_cons.
  - reflexivity.
  - intros element. cbv zeta. unfold element_events_of. cbn [app]. apply objectArrayUniq_app.
Qed.

End QueryFacts.

(** ** The interception layer *)

(** On the sample page, the native [setTimeout] hands out timer id 1 and
    the installed wrapper hands [undefined] to its caller. *)
Lemma setTimeout_wrapper_result_on_sample_page :
  (call_TimerFn (setTimeout_wrapper native_setTimeout) (VTarget TWindow)
     [VFun "f"; VNum 100] sample_page).1 = Normal VUndefined
  ∧ (call_TimerFn native_setTimeout (VTarget TWindow) [VFun "f"; VNum 100]
       (with_set_timeouts
          [ {| tr_function := VFun "f"; tr_timeout := VNum 100 |} ]
          sample_page)).1 = Normal (VNum 1).
Proof. split; reflexivity. Qed.

(** C2, as stated, fails: the [setTimeout] wrapper does not return the
    result of the original implementation. *)
Lemma timer_wrapper_drops_result : ¬ timer_wrapper_returns_original_result.
Proof.
  intros H.
  specialize (H native_setTimeout (VTarget TWindow) [VFun "f"; VNum 100]
                sample_page).
  vm_compute in H. discriminate H.
Qed.

Section InterceptionFacts.

Variable getSelector : EventTarget -> string.

(** C2, amended. Every call through a timer wrapper, and every listener
    registration on an element through the [Node.prototype] wrapper,
    first appends the record of the call's arguments, then invokes the
    function the wrapper replaced with the same this-binding and the same
    arguments; the wrapper itself returns [undefined], and an exception of
    the original propagates after the record was appended. *)
Theorem wrappers_record_then_forward (original_timer : TimerFn)
    (original_listener : ListenerFn) (this : JsVal) (element : Element)
    (arguments : list JsVal) (p : Page) :
  call_TimerFn (setTimeout_wrapper original_timer) this arguments p
  = discard_result (call_TimerFn original_timer this arguments)
      (with_set_timeouts
         (set_timeouts p ++ [ {| tr_function := argument arguments 0;
                                 tr_timeout := argument arguments 1 |} ])
         p)
  ∧ call_TimerFn (setInterval_wrapper original_timer) this arguments p
    = discard_result (call_TimerFn original_timer this arguments)
        (with_set_intervals
           (set_intervals p ++ [ {| tr_function := argument arguments 0;
                                    tr_timeout := argument arguments 1 |} ])
           p)
  ∧ call_ListenerFn getSelector
      (node_addEventListener_wrapper original_listener)
      (TElement element) arguments p
    = discard_result
        (call_ListenerFn getSelector original_listener (TElement element)
           arguments)
        (with_event_listeners
           (event_listeners p ++
              [ {| lr_tag_name := JsString.toLowerCase (tagName (data element));
                   lr_node_type := VNum (nodeType (data element));
                   lr_selector := getSelector (TElement element);
                   lr_event_type := argument arguments 0;
                   lr_use_capture := argument arguments 2 |} ])
           p).
Proof.
  split; [|split].
  - cbn [call_TimerFn]. unfold discard_result, mbind, JS_bind, get, modify.
    by destruct (call_TimerFn original_timer this arguments _) as [[v|e] q].
  - cbn [call_TimerFn]. unfold discard_result, mbind, JS_bind, get, modify.
    by destruct (call_TimerFn original_timer this arguments _) as [[v|e] q].
  - cbn [call_ListenerFn]. unfold storeEventListenerData.
    cbn [target_tagName target_nodeType].
    unfold discard_result, mbind, JS_bind, get, modify.
    by destruct (call_ListenerFn getSelector original_listener _ arguments _)
      as [[v|e] q].
Qed.

(** On the window and on the document, [storeEventListenerData] raises
    before it pushes anything: the wrappers leave the page as it was and
    never reach the function they replaced. *)
Lemma window_document_wrappers_raise (original : ListenerFn)
    (this : EventTarget) (arguments : list JsVal) (p : Page) :
  call_ListenerFn getSelector (window_addEventListener_wrapper original)
    this arguments p
  = (Thrown (TypeError "Cannot read property 'toLowerCase' of undefined"), p)
  ∧ call_ListenerFn getSelector (document_addEventListener_wrapper original)
      this arguments p
    = (Thrown (TypeError "Cannot read property 'toLowerCase' of undefined"), p).
Proof. split; reflexivity. Qed.

(** The document wrapper hands the ambient [event] to
    [storeEventListenerData], not its parameter [type]. *)
Lemma document_wrapper_passes_ambient_event (original : ListenerFn)
    (this : EventTarget) (arguments : list JsVal) (p : Page) :
  call_ListenerFn getSelector (document_addEventListener_wrapper original)
    this arguments p
  = (storeEventListenerData getSelector TDocument (window_event p)
       (argument arguments 1) (argument arguments 2);;
     call_ListenerFn getSelector original TDocument arguments;;
     mret VUndefined) p.
Proof. reflexivity. Qed.

End InterceptionFacts.

(** C1. Registering a click listener on the document of the initialized
    sample page goes through the document wrapper, which hands the ambient
    [event] (here [undefined]) instead of ["click"] to
    [storeEventListenerData]; the call raises, and no Listener Record with
    event type ["click"] is in [event_listeners] afterwards. *)
Theorem document_registration_does_not_record_type :
  let arguments := [VStr "click"; VFun "f"; VBool false] in
  let result :=
    addEventListener sample_getSelector TDocument arguments
      initialized_sample_page in
  lookup_addEventListener initialized_sample_page TDocument
  = document_addEventListener_wrapper native_addEventListener
  ∧ window_event initialized_sample_page = VUndefined
  ∧ addEventListener sample_getSelector TDocument arguments
      initialized_sample_page
    = (storeEventListenerData sample_getSelector TDocument VUndefined
         (VFun "f") (VBool false);;
       call_ListenerFn sample_getSelector native_addEventListener TDocument
         arguments;;
       mret VUndefined) initialized_sample_page
  ∧ result.1
    = Thrown (TypeError "Cannot read property 'toLowerCase' of undefined")
  ∧ event_listeners result.2 = [].
Proof. repeat split; reflexivity. Qed.

(** C3. Registering a load listener on the window of the initialized
    sample page raises inside the recording step: no Listener Record is
    appended and the native [addEventListener] is never reached. The same
    happens on the document. *)
Theorem window_registration_raises :
  let arguments := [VStr "load"; VFun "f"; VBool false] in
  let on_window :=
    addEventListener sample_getSelector TWindow arguments
      initialized_sample_page in
  let on_document :=
    addEventListener sample_getSelector TDocument arguments
      initialized_sample_page in
  on_window.1
  = Thrown (TypeError "Cannot read property 'toLowerCase' of undefined")
  ∧ event_listeners on_window.2 = []
  ∧ native_calls on_window.2 = []
  ∧ on_document.1
    = Thrown (TypeError "Cannot read property 'toLowerCase' of undefined")
  ∧ event_listeners on_document.2 = []
  ∧ native_calls on_document.2 = [].
Proof. repeat split; reflexivity. Qed.

(** ** Initialization *)

Lemma initialize_when_initialized (p : Page) :
  initialized p = true → initialize p = (Normal VUndefined, p).
Proof.
  intros H. unfold initialize, mbind, JS_bind, get. by rewrite H.
Qed.

(** C10. [initialize] never raises. The first call, on a page where the
    flag is unset, sets the flag and replaces each of the five slots by one
    wrapper around the value the slot held; the record lists are untouched.
    Every later call returns at once and changes nothing, however often it
    is repeated. *)
Theorem initialize_idempotent (p : Page) :
  let p1 := (initialize p).2 in
  (initialize p).1 = Normal VUndefined
  ∧ initialize p1 = (Normal VUndefined, p1)
  ∧ (∀ n, Nat.iter n (λ q, (initialize q).2) p1 = p1)
  ∧ (initialized p = true → p1 = p)
  ∧ (initialized p = false →
     initialized p1 = true
     ∧ window_setTimeout p1 = setTimeout_wrapper (window_setTimeout p)
     ∧ window_setInterval p1 = setInterval_wrapper (window_setInterval p)
     ∧ window_addEventListener p1
       = window_addEventListener_wrapper (window_addEventListener p)
     ∧ document_addEventListener p1
       = Some (document_addEventListener_wrapper
                 (lookup_addEventListener p TDocument))
     ∧ Node_prototype_addEventListener p1
       = node_addEventListener_wrapper (Node_prototype_addEventListener p)
     ∧ set_timeouts p1 = set_timeouts p
     ∧ set_intervals p1 = set_intervals p
     ∧ event_listeners p1 = event_listeners p
     ∧ native_calls p1 = native_calls p).
Proof.
  intros p1.
  assert (Hflag : initialized p1 = true).
  { subst p1. unfold initialize, mbind, JS_bind, get.
    destruct (initialized p) eqn:H; [exact H | reflexivity]. }
  assert (Hfix : initialize p1 = (Normal VUndefined, p1))
    by (by apply initialize_when_initialized).
  split; [|split; [exact Hfix|split; [|split]]].
  - unfold initialize, mbind, JS_bind, get. by destruct (initialized p).
  - induction n as [|n IH]; [reflexivity|].
    rewrite Nat.iter_succ, IH. by rewrite Hfix.
  - intros H. subst p1. by rewrite initialize_when_initialized.
  - intros H. subst p1. unfold initialize, mbind, JS_bind, get.
    rewrite H. by destruct p.
Qed.

Lemma initialize_idempotent_witness :
  initialized sample_page = false
  ∧ window_setTimeout (initialize sample_page).2
    = setTimeout_wrapper native_setTimeout
  ∧ initialize (initialize sample_page).2
    = (Normal VUndefined, (initialize sample_page).2).
Proof.
  split; [reflexivity|].
  destruct (initialize_idempotent sample_page) as (_ & Hfix & _ & _ & Hfirst).
  split; [|exact Hfix].
  destruct (Hfirst eq_refl) as (_ & Ht & _). exact Ht.
Defined.

(** ** Dispatch *)

(** C8. [dispatchCustomEvent] returns false and leaves the page as it was
    when the selector resolves to nothing or to a hidden element; otherwise
    it dispatches on the resolved element one event of the given type that
    bubbles, is cancelable, has the four modifier-key flags false and the
    window as view, changes nothing else, and returns true. *)
Theorem dispatchCustomEvent_spec (selector event_type : string) (p : Page) :
  (querySelector p selector = None →
   dispatchCustomEvent selector event_type p = (Normal false, p))
  ∧ (∀ element,
       querySelector p selector = Some element →
       elementIsHidden (Some element) = true →
       dispatchCustomEvent selector event_type p = (Normal false, p))
  ∧ (∀ element,
       querySelector p selector = Some element →
       elementIsHidden (Some element) = false →
       dispatchCustomEvent selector event_type p
       = (Normal true,
          with_dispatched
            (element,
             {| ev_type := event_type;
                ev_bubbles := true;
                ev_cancelable := true;
                ev_altKey := VBool false;
                ev_shiftKey := VBool false;
                ev_ctrlKey := VBool false;
                ev_metaKey := VBool false;
                ev_view := VTarget TWindow |})
            p)).
Proof.
  unfold dispatchCustomEvent, mbind, JS_bind, get.
  split; [|split].
  - by intros ->.
  - intros element -> Hh. by rewrite Hh.
  - intros element -> Hh. by rewrite Hh.
Qed.

Lemma dispatchCustomEvent_spec_witness :
  dispatchCustomEvent "html > body > p" "click" sample_page
  = (Normal false, sample_page)
  ∧ dispatchCustomEvent "html > body > span" "click" sample_page
    = (Normal false, sample_page)
  ∧ (dispatchCustomEvent "html > body > div" "click" sample_page).1
    = Normal true.
Proof.
  destruct (dispatchCustomEvent_spec "html > body > p" "click" sample_page)
    as (Hnone & _ & _).
  destruct (dispatchCustomEvent_spec "html > body > span" "click" sample_page)
    as (_ & Hhidden & _).
  destruct (dispatchCustomEvent_spec "html > body > div" "click" sample_page)
    as (_ & _ & Hvisible).
  split; [apply Hnone; reflexivity|].
  split; [apply (Hhidden span_hidden); reflexivity|].
  rewrite (Hvisible div_onclick); reflexivity.
Defined.

(** ** The statements at concrete inputs *)

Lemma eventIsValidForTagName_spec_witness :
  eventIsValidForTagName "input" "keyup" = true
  ∧ eventIsValidForTagName "div" "click" = true
  ∧ (eventIsValidForTagName "div" "keyup" = false →
     ∀ events, valid_events_per_element !! "div" = Some events →
               "keyup" ∉ events).
Proof.
  destruct (eventIsValidForTagName_spec "input" "keyup") as [[_ Hin] _].
  destruct (eventIsValidForTagName_spec "div" "click") as [[_ Hdiv] _].
  destruct (eventIsValidForTagName_spec "div" "keyup") as [_ [Hno _]].
  split; [|split].
  - apply Hin. right.
    exists ["select"; "change"; "focus"; "blur"; "keydown"; "keypress";
            "keyup"; "input"].
    split; [reflexivity|]. do 6 apply list_elem_of_further. apply list_elem_of_here.
  - apply Hdiv. left. apply list_elem_of_here.
  - intros H. exact (proj2 (Hno H)).
Defined.

Lemma objectArrayUniq_structural_dedup_witness :
  let e1 := {| tag_name := "div"; node_type := 1; selector := "div";
               event_type := "click"; handler := "x()" |} in
  let e2 := {| tag_name := "div"; node_type := 1; selector := "div";
               event_type := "click"; handler := "y()" |} in
  objectArrayUniq [e1; e1; e2] = [e1; e2]
  ∧ e1 ∈ objectArrayUniq [e1; e1; e2]
  ∧ e2 ∈ objectArrayUniq [e1; e1; e2].
Proof.
  intros e1 e2.
  destruct (objectArrayUniq_structural_dedup [e1; e1; e2]) as (_ & Hin & _).
  split; [reflexivity|]. split; apply Hin.
  - apply list_elem_of_here.
  - do 2 apply list_elem_of_further. apply list_elem_of_here.
Defined.

Lemma getElementsWithEventHandlers_filter_spec_witness :
  getElementsWithEventHandlers sample_getSelector [] sample_page
  = unfiltered_events sample_getSelector (all_elements sample_page)
  ∧ getElementsWithEventHandlers sample_getSelector ["click"] sample_page
    = List.filter (fun e => bool_decide (event_type e ∈ ["click"]))
        (unfiltered_events sample_getSelector (all_elements sample_page)).
Proof.
  destruct (getElementsWithEventHandlers_filter_spec sample_getSelector
              sample_page "click" []) as (Hnil & Hcons & _).
  split; [exact Hnil | exact Hcons].
Defined.

Lemma wrappers_record_then_forward_witness :
  call_TimerFn (setTimeout_wrapper native_setTimeout) (VTarget TWindow)
    [VFun "f"; VNum 100] sample_page
  = discard_result
      (call_TimerFn native_setTimeout (VTarget TWindow) [VFun "f"; VNum 100])
      (with_set_timeouts
         (set_timeouts sample_page
          ++ [ {| tr_function := argument [VFun "f"; VNum 100] 0;
                  tr_timeout := argument [VFun "f"; VNum 100] 1 |} ])
         sample_page).
Proof.
  exact (proj1 (wrappers_record_then_forward sample_getSelector
                  native_setTimeout native_addEventListener (VTarget TWindow)
                  div_onclick [VFun "f"; VNum 100] sample_page)).
Defined.

(** What the query returns on the sample page: the div's own handler once
    (its copy found by the inheritance walk is merged away), the link's
    handler, and the same handler re-scoped to the button inside the link;
    the hidden span gives nothing. *)
Example getElementsWithEventHandlers_sample :
  getElementsWithEventHandlers sample_getSelector [] sample_page
  = [ {| tag_name := "div"; node_type := 1; selector := "html > body > div";
         event_type := "click"; handler := "x()" |};
      {| tag_name := "a"; node_type := 1; selector := "html > body > a";
         event_type := "click"; handler := "go()" |};
      {| tag_name := "button"; node_type := 1;
         selector := "html > body > a > button";
         event_type := "click"; handler := "go()" |} ].
Proof. reflexivity. Qed.

(** A timer scheduled and a listener registered on an element of the
    initialized sample page: one record each, the native entry points
    reached with the caller's this-binding and arguments, [undefined]
    returned. *)
Example interception_sample :
  let p1 := (setTimeout (VTarget TWindow) [VFun "f"; VNum 100]
               initialized_sample_page).2 in
  let r := addEventListener sample_getSelector (TElement div_onclick)
             [VStr "click"; VFun "g"; VBool false] p1 in
  r.1 = Normal VUndefined
  ∧ set_timeouts r.2 = [ {| tr_function := VFun "f"; tr_timeout := VNum 100 |} ]
  ∧ event_listeners r.2
    = [ {| lr_tag_name := "div"; lr_node_type := VNum 1;
           lr_selector := "html > body > div";
           lr_event_type := VStr "click"; lr_use_capture := VBool false |} ]
  ∧ native_calls r.2
    = [ CallSetTimeout (VTarget TWindow) [VFun "f"; VNum 100];
        CallAddEventListener (TElement div_onclick)
          [VStr "click"; VFun "g"; VBool false] ].
Proof. repeat split; reflexivity. Qed.

(** * Further properties *)

(** ** Serialization and deduplication *)

(** X1. The comparison that [objectArrayUniq] makes between two entries,
    strict equality of their [JSON.stringify] texts, succeeds exactly when
    the two descriptors agree on all five fields. *)
Theorem JSON_stringify_eqb_iff (e e' : EventData) :
  String.eqb (JSON_stringify e) (JSON_stringify e') = true ↔ same_fields e e'.
Proof.
  rewrite String.eqb_eq, same_fields_eq. split.
  - apply JSON_stringify_inj.
  - by intros ->.
Qed.

Lemma objectArrayUniq_NoDup (a : list EventData) : NoDup (objectArrayUniq a).
Proof.
  unfold objectArrayUniq.
  by destruct (objectArrayUniq_loop_spec (length a) a) as (H & _); [lia|].
Qed.

Lemma objectArrayUniq_sublist (a : list EventData) :
  objectArrayUniq a `sublist_of` a.
Proof.
  unfold objectArrayUniq.
  by destruct (objectArrayUniq_loop_spec (length a) a) as (_ & _ & H); [lia|].
Qed.

Lemma objectArrayUniq_elem_of (a : list EventData) (e : EventData) :
  e ∈ objectArrayUniq a ↔ e ∈ a.
Proof.
  unfold objectArrayUniq.
  destruct (objectArrayUniq_loop_spec (length a) a) as (_ & H & _); [lia|].
  apply H.
Qed.

(** X2. [objectArrayUniq] is idempotent: a second pass over its own output
    removes nothing. *)
Theorem objectArrayUniq_idempotent (a : list EventData) :
  objectArrayUniq (objectArrayUniq a) = objectArrayUniq a.
Proof. apply objectArrayUniq_NoDup_id, objectArrayUniq_NoDup. Qed.

(** X3. [objectArrayUniq] returns its input unchanged exactly when the
    input holds no descriptor twice; it never returns more entries than
    it was given, and an empty array gives an empty array. *)
Theorem objectArrayUniq_fixed_iff_NoDup (a : list EventData) :
  (objectArrayUniq a = a ↔ NoDup a)
  ∧ (length (objectArrayUniq a) ≤ length a)%nat
  ∧ objectArrayUniq [] = [].
Proof.
  split; [|split; [|reflexivity]].
  - split; [|apply objectArrayUniq_NoDup_id].
    intros <-. apply objectArrayUniq_NoDup.
  - apply sublist_length, objectArrayUniq_sublist.
Qed.

(** ** The ancestor walk *)

Scheme Element_mut := Induction for Element Sort Prop
  with ParentNode_mut := Induction for ParentNode Sort Prop.

Lemma getAncestors_unfold (elem : Element) :
  getAncestors elem
  = elem :: match parentNode elem with
            | ParentElement q => getAncestors q
            | ParentDocument => []
            | ParentNull => []
            end.
Proof. by destruct elem as [d [| |q]]. Qed.

(** X4. The array returned by [getAncestors(elem, null)] starts with [elem]
    itself, each further entry is the [parentNode] of the entry before it,
    and the walk stops at the entry whose [parentNode] is the document or
    null: the document is never in the array. *)
Theorem getAncestors_chain (elem : Element) :
  head (getAncestors elem) = Some elem
  ∧ (∀ i a b,
       getAncestors elem !! i = Some a →
       getAncestors elem !! S i = Some b →
       parentNode a = ParentElement b)
  ∧ (∀ a, last (getAncestors elem) = Some a →
          parentNode a = ParentDocument ∨ parentNode a = ParentNull).
Proof.
  split; [by destruct elem as [d [| |q]]|].
  induction elem as [d p IH| | |q IH] using Element_mut
    with (P0 := fun p =>
            match p with
            | ParentElement q =>
              (∀ i a b,
                 getAncestors q !! i = Some a →
                 getAncestors q !! S i = Some b →
                 parentNode a = ParentElement b)
              ∧ (∀ a, last (getAncestors q) = Some a →
                      parentNode a = ParentDocument ∨ parentNode a = ParentNull)
            | ParentDocument => True
            | ParentNull => True
            end); try exact I; try exact IH.
  rewrite getAncestors_unfold. cbn [parentNode].
  destruct p as [| |q].
  - split.
    + intros i a b _ Hb. by destruct i.
    + intros a [= <-]. by right.
  - split.
    + intros i a b _ Hb. by destruct i.
    + intros a [= <-]. by left.
  - destruct IH as [IH1 IH2]. split.
    + intros [|i] a b Ha Hb.
      * injection Ha as <-. cbn in Hb. rewrite getAncestors_unfold in Hb.
        by injection Hb as <-.
      * exact (IH1 i a b Ha Hb).
    + intros a Ha. apply IH2. rewrite getAncestors_unfold in Ha |- *.
      exact Ha.
Qed.

(** X5. With a selector, [getAncestors] returns the entries of the walk
    without a selector that match it, in the same order; a null or empty
    selector keeps every entry. *)
Theorem getAncestors_matching_spec (matches : Element -> string -> bool)
    (elem : Element) (selector : option string) :
  getAncestors_matching matches elem selector
  = if selector_truthy selector
    then List.filter (fun e => matches e (default EmptyString selector))
                     (getAncestors elem)
    else getAncestors elem.
Proof.
  induction elem as [d p IH| | |q IH] using Element_mut
    with (P0 := fun p =>
            match p with
            | ParentElement q =>
              getAncestors_matching matches q selector
              = if selector_truthy selector
                then List.filter
                       (fun e => matches e (default EmptyString selector))
                       (getAncestors q)
                else getAncestors q
            | ParentDocument => True
            | ParentNull => True
            end); try exact I; try exact IH.
  rewrite getAncestors_unfold. cbn [getAncestors_matching parentNode].
  destruct (selector_truthy selector); cbn [List.filter].
  - destruct (matches _ _); destruct p as [| |q]; try reflexivity;
      by rewrite IH.
  - destruct p as [| |q]; try reflexivity. by rewrite IH.
Qed.

(** ** The validity matrix, as a vocabulary *)

Lemma known_event_of_valid (tag_name attr_name : string) :
  eventIsValidForTagName tag_name attr_name = true →
  attr_name ∈ known_event_types.
Proof.
  unfold eventIsValidForTagName.
  destruct (JsString.includes universally_valid_events attr_name) eqn:Hu.
  - intros _. apply includes_spec in Hu.
    repeat (apply elem_of_cons in Hu as [->|Hu]);
      try (apply includes_spec; reflexivity).
    by apply elem_of_nil in Hu.
  - destruct (valid_events_per_element !! tag_name) as [events|] eqn:Ht;
      [|discriminate].
    intros He. apply includes_spec in He.
    apply elem_of_list_to_map_2 in Ht.
    repeat (apply elem_of_cons in Ht as [Ht|Ht];
            [injection Ht as -> ->;
             repeat (apply elem_of_cons in He as [->|He]);
             try (apply includes_spec; reflexivity);
             by apply elem_of_nil in He|]).
    by apply elem_of_nil in Ht.
Qed.

(** X6. An event name is accepted by [eventIsValidForTagName] for some tag
    name exactly when it is one of the eighteen names of the two tables;
    the empty name is accepted for no tag. *)
Theorem eventIsValidForTagName_vocabulary (attr_name : string) :
  ((∃ tag_name, eventIsValidForTagName tag_name attr_name = true)
   ↔ attr_name ∈ known_event_types)
  ∧ ∀ tag_name, eventIsValidForTagName tag_name "" = false.
Proof.
  split.
  - split.
    + intros [tag_name H]. by apply known_event_of_valid in H.
    + intros H.
      repeat (apply elem_of_cons in H as [->|H]);
        try (by exists "input"); try (by exists "body"); try (by exists "form").
      by apply elem_of_nil in H.
  - intros tag_name.
    destruct (eventIsValidForTagName tag_name "") eqn:H; [|reflexivity].
    apply known_event_of_valid in H.
    apply includes_spec in H. discriminate H.
Qed.

(** ** Attribute extraction, element by element *)

Lemma substring_all (s : string) : String.substring 0 (String.length s) s = s.
Proof. induction s as [|c s IH]; [reflexivity|]. cbn. by rewrite IH. Qed.

Lemma substr_on (event_name : string) :
  JsString.substr ("on" +:+ event_name) 2 = event_name.
Proof.
  unfold JsString.substr.
  change ("on" +:+ event_name) with (String "o" (String "n" event_name)).
  cbn [String.length String.substring Nat.sub]. rewrite Nat.sub_0_r.
  apply substring_all.
Qed.

Lemma substr_short (s : string) :
  (String.length s ≤ 2)%nat → JsString.substr s 2 = "".
Proof.
  destruct s as [|a [|b [|c s]]]; cbn; intros H; try reflexivity. lia.
Qed.

Section ExtractionMembership.

Variable getSelector : EventTarget -> string.

Lemma extractEventsFromAttributes_elem_of tag_name element (d : EventData) :
  d ∈ extractEventsFromAttributes getSelector tag_name element
  ↔ ∃ attr, attr ∈ attributes (data element)
            ∧ eventIsValidForTagName tag_name
                (JsString.substr (nodeName attr) 2) = true
            ∧ d = scoped_descriptor getSelector tag_name element attr.
Proof.
  rewrite extractEventsFromAttributes_spec, list_elem_of_In, List.in_map_iff.
  split.
  - intros (attr & <- & Hin). apply List.filter_In in Hin as [Hin Hv].
    exists attr. by rewrite list_elem_of_In.
  - intros (attr & Hin & Hv & ->). exists attr. split; [reflexivity|].
    apply List.filter_In. by rewrite <- list_elem_of_In.
Qed.

(** X7. [extractEventsFromAttributes] returns a descriptor exactly when
    some attribute of the element, with the first two characters of its
    name removed, is valid for the given tag name; that descriptor carries
    the given tag name, the element's node type and selector, the shortened
    name and the attribute's value. It never returns more descriptors than
    the element has attributes. *)
Theorem extractEventsFromAttributes_sound_complete tag_name element :
  (∀ d, d ∈ extractEventsFromAttributes getSelector tag_name element
        ↔ ∃ attr, attr ∈ attributes (data element)
                  ∧ eventIsValidForTagName tag_name
                      (JsString.substr (nodeName attr) 2) = true
                  ∧ d = scoped_descriptor getSelector tag_name element attr)
  ∧ (length (extractEventsFromAttributes getSelector tag_name element)
     ≤ length (attributes (data element)))%nat.
Proof.
  split; [apply extractEventsFromAttributes_elem_of|].
  rewrite extractEventsFromAttributes_spec, List.length_map.
  apply List.filter_length_le.
Qed.

(** X8. An element whose attribute names all have at most two characters
    gives no descriptor, whatever the tag name; so does an element without
    attributes. *)
Theorem extractEventsFromAttributes_short_names tag_name element :
  (∀ attr, attr ∈ attributes (data element) →
           (String.length (nodeName attr) ≤ 2)%nat) →
  extractEventsFromAttributes getSelector tag_name element = [].
Proof.
  intros Hshort.
  destruct (extractEventsFromAttributes getSelector tag_name element)
    as [|d l] eqn:He; [reflexivity|].
  assert (Hd : d ∈ extractEventsFromAttributes getSelector tag_name element)
    by (rewrite He; left).
  apply extractEventsFromAttributes_elem_of in Hd as (attr & Hin & Hv & _).
  rewrite (substr_short _ (Hshort attr Hin)) in Hv.
  apply known_event_of_valid, includes_spec in Hv. discriminate Hv.
Qed.

Lemma extractInheritedEvents_elem_of tag_name element (d : EventData) :
  d ∈ extractInheritedEvents getSelector tag_name element
  ↔ JsString.includes elements_allowed_to_inherit_events_from_ancestors
      tag_name = true
    ∧ ∃ node attr,
        node ∈ getAncestors element
        ∧ attr ∈ attributes (data node)
        ∧ eventIsValidForTagName (JsString.toLowerCase (tagName (data node)))
            (JsString.substr (nodeName attr) 2) = true
        ∧ d = scoped_descriptor getSelector tag_name element attr.
Proof.
  rewrite extractInheritedEvents_spec, <- getAncestors_self.
  destruct (JsString.includes _ tag_name).
  - unfold rescoped_events. rewrite list_elem_of_In, List.in_flat_map. split.
    + intros (node & Hnode & Hd). split; [reflexivity|].
      apply List.in_map_iff in Hd as (e & <- & He).
      apply list_elem_of_In, extractEventsFromAttributes_elem_of in He
        as (attr & Hattr & Hv & ->).
      exists node, attr. by rewrite list_elem_of_In.
    + intros (_ & node & attr & Hnode & Hattr & Hv & ->).
      exists node. split; [by apply list_elem_of_In|].
      apply List.in_map_iff.
      exists (scoped_descriptor getSelector
                (JsString.toLowerCase (tagName (data node))) node attr).
      split; [reflexivity|].
      apply list_elem_of_In, extractEventsFromAttributes_elem_of. by exists attr.
  - split; [intros H; inversion H | by intros [? _]].
Qed.

(** X9. [extractInheritedEvents] returns a descriptor exactly when the tag
    name is in the inheritance allow-list and some node of the walk (the
    element or one of its ancestors below the document) has an attribute
    whose shortened name is valid for that node's own lower-case tag name:
    the validity check uses the node's tag, not the element's. Every
    descriptor it returns carries the given tag name and the element's node
    type and selector; for a tag name outside the allow-list the result is
    empty. *)
Theorem extractInheritedEvents_sound_complete tag element :
  (∀ d, d ∈ extractInheritedEvents getSelector tag element
        ↔ JsString.includes elements_allowed_to_inherit_events_from_ancestors
            tag = true
          ∧ ∃ node attr,
              node ∈ getAncestors element
              ∧ attr ∈ attributes (data node)
              ∧ eventIsValidForTagName
                  (JsString.toLowerCase (tagName (data node)))
                  (JsString.substr (nodeName attr) 2) = true
              ∧ d = scoped_descriptor getSelector tag element attr)
  ∧ (∀ d, d ∈ extractInheritedEvents getSelector tag element →
          tag_name d = tag
          ∧ node_type d = nodeType (data element)
          ∧ selector d = getSelector (TElement element))
  ∧ (JsString.includes elements_allowed_to_inherit_events_from_ancestors
       tag = false →
     extractInheritedEvents getSelector tag element = []).
Proof.
  split; [intros d; apply extractInheritedEvents_elem_of|]. split.
  - intros d Hd.
    apply extractInheritedEvents_elem_of in Hd as (_ & node & attr & _ & _ & _ & ->).
    by repeat split.
  - intros H. unfold extractInheritedEvents. by rewrite H.
Qed.

End ExtractionMembership.

(** ** The document-wide query, descriptor by descriptor *)

Lemma filterByEventName_elem_of (l : list EventData) (event_filter : list string)
    (d : EventData) :
  d ∈ filterByEventName l event_filter
  ↔ d ∈ l ∧ (event_filter = [] ∨ event_type d ∈ event_filter).
Proof.
  destruct event_filter as [|x f].
  - rewrite filterByEventName_nil. split; [intros H; split; [done | by left] | by intros [H _]].
  - rewrite filterByEventName_cons, list_elem_of_In, List.filter_In,
      <- list_elem_of_In, bool_decide_eq_true.
    split; [intros [H1 H2]; split; [done | by right]|].
    intros [H1 [H2|H2]]; [discriminate | done].
Qed.

Lemma List_filter_sublist {A} (f : A → bool) (l : list A) :
  List.filter f l `sublist_of` l.
Proof.
  induction l as [|x l IH]; [constructor|]. cbn [List.filter].
  destruct (f x); [by apply sublist_skip | by apply sublist_cons].
Qed.

Lemma filterByEventName_sublist (l : list EventData) (event_filter : list string) :
  filterByEventName l event_filter `sublist_of` l.
Proof.
  unfold filterByEventName. destruct (_ =? _)%nat; [reflexivity|].
  apply List_filter_sublist.
Qed.

Lemma flat_map_sublist {A B} (g h : A → list B) (l : list A) :
  (∀ x, g x `sublist_of` h x) →
  List.flat_map g l `sublist_of` List.flat_map h l.
Proof.
  intros Hgh. induction l as [|x l IH]; [constructor|].
  cbn [List.flat_map]. by apply sublist_app.
Qed.

Section QueryMembership.

Variable getSelector : EventTarget -> string.

Lemma element_events_of_elem_of element (d : EventData) :
  d ∈ element_events_of getSelector element
  ↔ d ∈ extractEventsFromAttributes getSelector
          (JsString.toLowerCase (tagName (data element))) element
    ∨ d ∈ extractInheritedEvents getSelector
            (JsString.toLowerCase (tagName (data element))) element.
Proof.
  unfold element_events_of. cbn [app].
  by rewrite objectArrayUniq_elem_of, elem_of_app.
Qed.

Lemma getAncestors_head_elem_of (element : Element) :
  element ∈ getAncestors element.
Proof. rewrite getAncestors_self. left. Qed.

Lemma query_elem_of (p : Page) (event_filter : list string) (d : EventData) :
  d ∈ getElementsWithEventHandlers getSelector event_filter p
  ↔ ∃ element node attr,
      element ∈ all_elements p
      ∧ elementIsHidden (Some element) = false
      ∧ node ∈ getAncestors element
      ∧ (node = element
         ∨ JsString.includes elements_allowed_to_inherit_events_from_ancestors
             (JsString.toLowerCase (tagName (data element))) = true)
      ∧ attr ∈ attributes (data node)
      ∧ eventIsValidForTagName (JsString.toLowerCase (tagName (data node)))
          (JsString.substr (nodeName attr) 2) = true
      ∧ d = scoped_descriptor getSelector
              (JsString.toLowerCase (tagName (data element))) element attr
      ∧ (event_filter = [] ∨ event_type d ∈ event_filter).
Proof.
  unfold getElementsWithEventHandlers.
  rewrite getElementsWithEventHandlers_loop_spec, list_elem_of_In,
    List.in_flat_map.
  split.
  - intros (element & Hel & Hd).
    apply List.filter_In in Hel as [Hel Hvis].
    apply negb_true_iff in Hvis.
    apply list_elem_of_In, filterByEventName_elem_of in Hd as [Hd Hf].
    apply element_events_of_elem_of in Hd as [Hd|Hd].
    + apply extractEventsFromAttributes_elem_of in Hd as (attr & Hattr & Hv & ->).
      exists element, element, attr.
      repeat split; try done.
      * by apply list_elem_of_In.
      * apply getAncestors_head_elem_of.
      * by left.
    + apply extractInheritedEvents_elem_of in Hd
        as (Hallow & node & attr & Hnode & Hattr & Hv & ->).
      exists element, node, attr.
      repeat split; try done.
      * by apply list_elem_of_In.
      * by right.
  - intros (element & node & attr & Hel & Hvis & Hnode & Hcase & Hattr & Hv
            & -> & Hf).
    exists element. split.
    + apply List.filter_In. split; [by apply list_elem_of_In|]. by rewrite Hvis.
    + apply list_elem_of_In, filterByEventName_elem_of. split; [|done].
      apply element_events_of_elem_of.
      destruct Hcase as [->|Hallow].
      * left. apply extractEventsFromAttributes_elem_of. by exists attr.
      * right. apply extractInheritedEvents_elem_of. split; [done|].
        by exists node, attr.
Qed.

(** X10. What [getElementsWithEventHandlers] returns, descriptor by
    descriptor: a descriptor is in the result exactly when it is scoped to
    an element of the document that is not hidden, comes from an attribute
    of that element or, if the element's tag is in the inheritance
    allow-list, of a node on its ancestor walk, the attribute's shortened
    name is valid for the tag of the node that carries it, and the event
    type passes the filter. Whether the node that carries the attribute is
    hidden plays no part. *)
Theorem getElementsWithEventHandlers_sound_complete (p : Page)
    (event_filter : list string) (d : EventData) :
  d ∈ getElementsWithEventHandlers getSelector event_filter p
  ↔ ∃ element node attr,
      element ∈ all_elements p
      ∧ elementIsHidden (Some element) = false
      ∧ node ∈ getAncestors element
      ∧ (node = element
         ∨ JsString.includes elements_allowed_to_inherit_events_from_ancestors
             (JsString.toLowerCase (tagName (data element))) = true)
      ∧ attr ∈ attributes (data node)
      ∧ eventIsValidForTagName (JsString.toLowerCase (tagName (data node)))
          (JsString.substr (nodeName attr) 2) = true
      ∧ tag_name d = JsString.toLowerCase (tagName (data element))
      ∧ node_type d = nodeType (data element)
      ∧ selector d = getSelector (TElement element)
      ∧ event_type d = JsString.substr (nodeName attr) 2
      ∧ handler d = nodeValue attr
      ∧ (event_filter = [] ∨ event_type d ∈ event_filter).
Proof.
  rewrite query_elem_of. split.
  - intros (element & node & attr & H1 & H2 & H3 & H4 & H5 & H6 & -> & H7).
    exists element, node, attr. by repeat split.
  - intros (element & node & attr & H1 & H2 & H3 & H4 & H5 & H6 & Ht & Hn & Hs
            & He & Hh & H7).
    exists element, node, attr. repeat split; try done.
    destruct d; unfold scoped_descriptor; cbn in *. by subst.
Qed.

(** X11. Every event type that [getElementsWithEventHandlers] returns is
    one of the eighteen names of the validity matrix, whatever the document
    and the filter. *)
Theorem getElementsWithEventHandlers_vocabulary (p : Page)
    (event_filter : list string) (d : EventData) :
  d ∈ getElementsWithEventHandlers getSelector event_filter p →
  event_type d ∈ known_event_types.
Proof.
  intros Hd.
  apply query_elem_of in Hd as (element & node & attr & _ & _ & _ & _ & _ & Hv
                                 & -> & _).
  by apply known_event_of_valid in Hv.
Qed.

(** X12. Discovery: an inline handler [on<event>] on a node is returned,
    scoped to every element that is not hidden, whose ancestor walk contains
    the node and which is the node itself or has a tag in the inheritance
    allow-list, provided the event is valid for the node's tag and passes
    the filter. *)
Theorem inline_handler_is_discovered (p : Page) (event_filter : list string)
    (element node : Element) (event_name handler_source : string) :
  element ∈ all_elements p →
  elementIsHidden (Some element) = false →
  node ∈ getAncestors element →
  (node = element
   ∨ JsString.includes elements_allowed_to_inherit_events_from_ancestors
       (JsString.toLowerCase (tagName (data element))) = true) →
  {| nodeName := "on" +:+ event_name; nodeValue := handler_source |}
    ∈ attributes (data node) →
  eventIsValidForTagName (JsString.toLowerCase (tagName (data node)))
    event_name = true →
  (event_filter = [] ∨ event_name ∈ event_filter) →
  {| tag_name := JsString.toLowerCase (tagName (data element));
     node_type := nodeType (data element);
     selector := getSelector (TElement element);
     event_type := event_name;
     handler := handler_source |}
    ∈ getElementsWithEventHandlers getSelector event_filter p.
Proof.
  intros Hel Hvis Hnode Hcase Hattr Hv Hf.
  apply query_elem_of.
  exists element, node,
    {| nodeName := "on" +:+ event_name; nodeValue := handler_source |}.
  unfold scoped_descriptor. cbn [nodeName nodeValue event_type].
  rewrite substr_on. by repeat split.
Qed.

(** X13. Filtering only removes: for every filter the result of
    [getElementsWithEventHandlers] is the result for the empty filter with
    entries left out, in the same order. *)
Theorem getElementsWithEventHandlers_filter_sublist (p : Page)
    (event_filter : list string) :
  getElementsWithEventHandlers getSelector event_filter p
  `sublist_of` getElementsWithEventHandlers getSelector [] p.
Proof.
  unfold getElementsWithEventHandlers.
  rewrite !getElementsWithEventHandlers_loop_spec.
  apply flat_map_sublist. intros element.
  rewrite (filterByEventName_nil (element_events_of getSelector element)).
  apply filterByEventName_sublist.
Qed.

End QueryMembership.

(** X14. [filterByEventName] is idempotent, distributes over
    concatenation, and returns an empty array for an empty array. *)
Theorem filterByEventName_idempotent (l1 l2 : list EventData)
    (event_filter : list string) :
  filterByEventName (filterByEventName l1 event_filter) event_filter
  = filterByEventName l1 event_filter
  ∧ filterByEventName (l1 ++ l2) event_filter
    = filterByEventName l1 event_filter ++ filterByEventName l2 event_filter
  ∧ filterByEventName [] event_filter = [].
Proof.
  unfold filterByEventName. destruct (_ =? _)%nat; [done|].
  split; [|split; [apply List.filter_app | reflexivity]].
  induction l1 as [|x l IH]; [reflexivity|]. cbn [List.filter].
  destruct (JsString.includes _ _) eqn:H; [|exact IH].
  cbn [List.filter]. by rewrite H, IH.
Qed.

(** ** The logs only grow *)

Ltac js_unfold :=
  unfold page_after, mbind, mret, JS_bind, JS_ret, get, modify, throw in *.

Lemma page_extends_refl (p : Page) : page_extends p p.
Proof. unfold page_extends. by repeat split. Qed.

Lemma page_extends_trans (p q r : Page) :
  page_extends p q → page_extends q r → page_extends p r.
Proof.
  unfold page_extends.
  intros (H1 & H2 & H3 & H4 & H5 & H6 & H7 & H8 & H9 & Ha & Hb & Hc & Hd & He)
         (G1 & G2 & G3 & G4 & G5 & G6 & G7 & G8 & G9 & Ga & Gb & Gc & Gd & Ge).
  repeat split; try congruence; by etrans.
Qed.

Lemma native_timer_extends call this arguments (p : Page) :
  page_extends p (page_after (native_timer call this arguments) p)
  ∧ set_timeouts (page_after (native_timer call this arguments) p)
    = set_timeouts p
  ∧ set_intervals (page_after (native_timer call this arguments) p)
    = set_intervals p
  ∧ event_listeners (page_after (native_timer call this arguments) p)
    = event_listeners p
  ∧ dispatched (page_after (native_timer call this arguments) p)
    = dispatched p.
Proof.
  unfold native_timer. destruct (_ <? _)%nat; js_unfold; cbn.
  - split; [apply page_extends_refl | by repeat split].
  - split; [|by repeat split].
    unfold page_extends; cbn. repeat split; try done. by apply prefix_app_r.
Qed.

Lemma native_listener_extends this arguments (p : Page) :
  page_extends p (page_after (native_listener this arguments) p)
  ∧ set_timeouts (page_after (native_listener this arguments) p)
    = set_timeouts p
  ∧ set_intervals (page_after (native_listener this arguments) p)
    = set_intervals p
  ∧ event_listeners (page_after (native_listener this arguments) p)
    = event_listeners p
  ∧ dispatched (page_after (native_listener this arguments) p)
    = dispatched p.
Proof.
  unfold native_listener. destruct (_ <? _)%nat; js_unfold; cbn.
  - split; [apply page_extends_refl | by repeat split].
  - split; [|by repeat split].
    unfold page_extends; cbn. repeat split; try done. by apply prefix_app_r.
Qed.

Lemma with_set_timeouts_extends (r : TimerRecord) (p : Page) :
  page_extends p (with_set_timeouts (set_timeouts p ++ [r]) p).
Proof.
  unfold page_extends; cbn. repeat split; try done. by apply prefix_app_r.
Qed.

Lemma with_set_intervals_extends (r : TimerRecord) (p : Page) :
  page_extends p (with_set_intervals (set_intervals p ++ [r]) p).
Proof.
  unfold page_extends; cbn. repeat split; try done. by apply prefix_app_r.
Qed.

Lemma with_event_listeners_extends (r : ListenerRecord) (p : Page) :
  page_extends p (with_event_listeners (event_listeners p ++ [r]) p).
Proof.
  unfold page_extends; cbn. repeat split; try done. by apply prefix_app_r.
Qed.

Lemma page_after_discard {A} (m : JS A) (p : Page) :
  page_after (discard_result m) p = page_after m p.
Proof.
  unfold page_after, discard_result. by destruct (m p) as [[a|e] q].
Qed.

Lemma call_TimerFn_wrapper_page (original : TimerFn) this arguments (p : Page) :
  page_after (call_TimerFn (setTimeout_wrapper original) this arguments) p
  = page_after (call_TimerFn original this arguments)
      (with_set_timeouts (set_timeouts p ++ [timer_record arguments]) p)
  ∧ page_after (call_TimerFn (setInterval_wrapper original) this arguments) p
    = page_after (call_TimerFn original this arguments)
        (with_set_intervals (set_intervals p ++ [timer_record arguments]) p).
Proof.
  split; cbn [call_TimerFn]; js_unfold; cbn;
    unfold timer_record;
    by destruct (call_TimerFn original this arguments _) as [[v|e] q].
Qed.

(** X15. A call through any value of [window.setTimeout] or
    [window.setInterval], native or wrapped any number of times, whether it
    returns or raises, never removes or rewrites a record: each log of the
    page before is a prefix of the log after, the flag, the patched slots
    and the DOM are as before, and [event_listeners] is untouched. *)
Theorem call_TimerFn_extends (f : TimerFn) (this : JsVal)
    (arguments : list JsVal) (p : Page) :
  page_extends p (page_after (call_TimerFn f this arguments) p)
  ∧ event_listeners (page_after (call_TimerFn f this arguments) p)
    = event_listeners p
  ∧ dispatched (page_after (call_TimerFn f this arguments) p) = dispatched p.
Proof.
  revert p. induction f as [| |original IH|original IH]; intros p.
  - cbn [call_TimerFn].
    destruct (native_timer_extends CallSetTimeout this arguments p)
      as (H & _ & _ & H1 & H2). split; [exact H | by split].
  - cbn [call_TimerFn].
    destruct (native_timer_extends CallSetInterval this arguments p)
      as (H & _ & _ & H1 & H2). split; [exact H | by split].
  - rewrite (proj1 (call_TimerFn_wrapper_page original this arguments p)).
    destruct (IH (with_set_timeouts
                    (set_timeouts p ++ [timer_record arguments]) p))
      as (H & H1 & H2).
    split; [|split; [by rewrite H1 | by rewrite H2]].
    eapply page_extends_trans; [apply with_set_timeouts_extends | exact H].
  - rewrite (proj2 (call_TimerFn_wrapper_page original this arguments p)).
    destruct (IH (with_set_intervals
                    (set_intervals p ++ [timer_record arguments]) p))
      as (H & H1 & H2).
    split; [|split; [by rewrite H1 | by rewrite H2]].
    eapply page_extends_trans; [apply with_set_intervals_extends | exact H].
Qed.

(** X16. A timer call appends one record per wrapper layer, whether the
    native function returns or raises: [set_timeouts] grows by the number
    of [setTimeout] wrappers the called value is made of and
    [set_intervals] by the number of [setInterval] wrappers. Wrapping twice
    would record every call twice. *)
Theorem call_TimerFn_records_per_layer (f : TimerFn) (this : JsVal)
    (arguments : list JsVal) (p : Page) :
  length (set_timeouts (page_after (call_TimerFn f this arguments) p))
  = (length (set_timeouts p) + setTimeout_layers f)%nat
  ∧ length (set_intervals (page_after (call_TimerFn f this arguments) p))
    = (length (set_intervals p) + setInterval_layers f)%nat.
Proof.
  revert p. induction f as [| |original IH|original IH]; intros p.
  - cbn [call_TimerFn setTimeout_layers setInterval_layers].
    destruct (native_timer_extends CallSetTimeout this arguments p)
      as (_ & -> & -> & _). lia.
  - cbn [call_TimerFn setTimeout_layers setInterval_layers].
    destruct (native_timer_extends CallSetInterval this arguments p)
      as (_ & -> & -> & _). lia.
  - rewrite (proj1 (call_TimerFn_wrapper_page original this arguments p)).
    destruct (IH (with_set_timeouts
                    (set_timeouts p ++ [timer_record arguments]) p))
      as [-> ->].
    cbn [setTimeout_layers setInterval_layers set_timeouts set_intervals
         with_set_timeouts].
    rewrite length_app. cbn [length]. lia.
  - rewrite (proj2 (call_TimerFn_wrapper_page original this arguments p)).
    destruct (IH (with_set_intervals
                    (set_intervals p ++ [timer_record arguments]) p))
      as [-> ->].
    cbn [setTimeout_layers setInterval_layers set_timeouts set_intervals
         with_set_intervals].
    rewrite length_app. cbn [length]. lia.
Qed.

Section ListenerFacts.

Variable getSelector : EventTarget -> string.

Lemma call_ListenerFn_wrapper_page (original : ListenerFn) (this : EventTarget)
    (arguments : list JsVal) (p : Page) :
  page_after (call_ListenerFn getSelector
                (window_addEventListener_wrapper original) this arguments) p = p
  ∧ page_after (call_ListenerFn getSelector
                  (document_addEventListener_wrapper original) this arguments) p
    = p
  ∧ match this with
    | TElement e =>
      page_after (call_ListenerFn getSelector
                    (node_addEventListener_wrapper original) this arguments) p
      = page_after (call_ListenerFn getSelector original this arguments)
          (with_event_listeners
             (event_listeners p ++ [listener_record getSelector e arguments]) p)
    | _ =>
      page_after (call_ListenerFn getSelector
                    (node_addEventListener_wrapper original) this arguments) p
      = p
    end.
Proof.
  split; [reflexivity|]. split; [reflexivity|].
  destruct this as [| |e]; [reflexivity..|].
  cbn [call_ListenerFn]. unfold storeEventListenerData.
  cbn [target_tagName target_nodeType]. js_unfold. cbn.
  unfold listener_record.
  by destruct (call_ListenerFn getSelector original (TElement e) arguments _)
    as [[v|err] q].
Qed.

Lemma call_ListenerFn_extends_page (f : ListenerFn) (this : EventTarget)
    (arguments : list JsVal) (p : Page) :
  page_extends p (page_after (call_ListenerFn getSelector f this arguments) p)
  ∧ set_timeouts (page_after (call_ListenerFn getSelector f this arguments) p)
    = set_timeouts p
  ∧ set_intervals (page_after (call_ListenerFn getSelector f this arguments) p)
    = set_intervals p
  ∧ dispatched (page_after (call_ListenerFn getSelector f this arguments) p)
    = dispatched p.
Proof.
  revert this p. induction f as [|original IH|original IH|original IH];
    intros this p.
  - cbn [call_ListenerFn].
    destruct (native_listener_extends this arguments p)
      as (H & H1 & H2 & _ & H3). split; [exact H | by repeat split].
  - rewrite (proj1 (call_ListenerFn_wrapper_page original this arguments p)).
    split; [apply page_extends_refl | by repeat split].
  - rewrite (proj1 (proj2 (call_ListenerFn_wrapper_page original this
                             arguments p))).
    split; [apply page_extends_refl | by repeat split].
  - pose proof (proj2 (proj2 (call_ListenerFn_wrapper_page original this
                                arguments p))) as Hw.
    destruct this as [| |e]; rewrite Hw;
      try (split; [apply page_extends_refl | by repeat split]).
    destruct (IH (TElement e)
                (with_event_listeners
                   (event_listeners p ++ [listener_record getSelector e arguments])
                   p)) as (H & H1 & H2 & H3).
    split; [|split; [by rewrite H1 | split; [by rewrite H2 | by rewrite H3]]].
    eapply page_extends_trans; [apply with_event_listeners_extends | exact H].
Qed.

(** X17. A call through any value of an [addEventListener] slot, native or
    wrapped any number of times, on any target, whether it returns or
    raises, never removes or rewrites a record: each log of the page before
    is a prefix of the log after, the flag, the patched slots and the DOM
    are as before, and the two timer lists are untouched. *)
Theorem call_ListenerFn_extends (f : ListenerFn) (this : EventTarget)
    (arguments : list JsVal) (p : Page) :
  page_extends p (page_after (call_ListenerFn getSelector f this arguments) p)
  ∧ set_timeouts (page_after (call_ListenerFn getSelector f this arguments) p)
    = set_timeouts p
  ∧ set_intervals (page_after (call_ListenerFn getSelector f this arguments) p)
    = set_intervals p
  ∧ dispatched (page_after (call_ListenerFn getSelector f this arguments) p)
    = dispatched p.
Proof. apply call_ListenerFn_extends_page. Qed.

(** X18. The query never reads the interception logs: after any call
    through any value of an [addEventListener] slot, on any target,
    [getElementsWithEventHandlers] returns what it returned before.
    Listeners registered from script are not reported by the query. *)
Theorem getElementsWithEventHandlers_ignores_listeners (f : ListenerFn)
    (this : EventTarget) (arguments : list JsVal) (event_filter : list string)
    (p : Page) :
  getElementsWithEventHandlers getSelector event_filter
    (page_after (call_ListenerFn getSelector f this arguments) p)
  = getElementsWithEventHandlers getSelector event_filter p
  ∧ (length (event_listeners p)
     ≤ length (event_listeners
                 (page_after (call_ListenerFn getSelector f this arguments) p)))%nat.
Proof.
  destruct (call_ListenerFn_extends_page f this arguments p) as [H _].
  unfold page_extends in H.
  destruct H as (_ & _ & _ & _ & _ & _ & _ & Hdom & _ & _ & _ & Hl & _).
  split.
  - unfold getElementsWithEventHandlers. by rewrite Hdom.
  - by apply prefix_length.
Qed.

End ListenerFacts.

(** ** The instrumented page *)

Lemma inject_initialized (n : nat) (p : Page) :
  initialized p = true → inject n p = p.
Proof.
  intros H. induction n as [|n IH]; [reflexivity|].
  unfold inject in *. rewrite Nat.iter_succ, IH. unfold page_after.
  by rewrite initialize_when_initialized.
Qed.

(** X19. However many times the analyzer script is injected into a fresh
    page, at least once, the page ends up instrumented once: each of the
    five slots holds one wrapper around the native function (the
    document's own slot wraps the native function, not the
    [Node.prototype] wrapper), the logs are empty and the DOM is as it
    was. *)
Theorem inject_fresh_page (n : nat) (elements : list Element)
    (query : string -> option Element) (ambient_event : JsVal) :
  let p := inject (S n) (fresh_page elements query ambient_event) in
  instrumented p
  ∧ set_timeouts p = [] ∧ set_intervals p = [] ∧ event_listeners p = []
  ∧ native_calls p = [] ∧ dispatched p = []
  ∧ all_elements p = elements ∧ querySelector p = query.
Proof.
  cbv zeta. unfold inject. rewrite Nat.iter_succ_r.
  fold (inject n (page_after initialize (fresh_page elements query ambient_event))).
  rewrite inject_initialized by reflexivity.
  unfold instrumented. by repeat split.
Qed.


Section InstrumentedListeners.

Variable getSelector : EventTarget -> string.


End InstrumentedListeners.

(** ** Dispatch *)


(** ** The further statements at concrete inputs *)

Ltac elem_of_concrete :=
  apply list_elem_of_In; cbn; repeat (first [left; reflexivity | right]).

Lemma JSON_stringify_eqb_iff_witness :
  String.eqb (JSON_stringify button_click) (JSON_stringify button_click) = true.
Proof.
  apply (JSON_stringify_eqb_iff button_click button_click).
  repeat split; reflexivity.
Defined.

Lemma objectArrayUniq_fixed_iff_NoDup_witness :
  NoDup [button_click] ∧ objectArrayUniq [button_click] = [button_click].
Proof.
  assert (H : NoDup [button_click]) by apply NoDup_singleton.
  split; [exact H|].
  exact (proj2 (proj1 (objectArrayUniq_fixed_iff_NoDup [button_click])) H).
Defined.

Lemma getAncestors_chain_witness :
  getAncestors button_in_a = [button_in_a; a_onclick; body_element; html_element]
  ∧ parentNode button_in_a = ParentElement a_onclick
  ∧ (parentNode html_element = ParentDocument
     ∨ parentNode html_element = ParentNull).
Proof.
  destruct (getAncestors_chain button_in_a) as (_ & Hstep & Hlast).
  split; [reflexivity|]. split.
  - apply (Hstep 0%nat button_in_a a_onclick); reflexivity.
  - apply (Hlast html_element). reflexivity.
Defined.

Lemma eventIsValidForTagName_vocabulary_witness :
  "submit" ∈ known_event_types
  ∧ ∃ tag_name, eventIsValidForTagName tag_name "submit" = true.
Proof.
  assert (H : "submit" ∈ known_event_types) by elem_of_concrete.
  split; [exact H|].
  exact (proj2 (proj1 (eventIsValidForTagName_vocabulary "submit")) H).
Defined.

Lemma extractEventsFromAttributes_sound_complete_witness :
  {| tag_name := "div"; node_type := 1; selector := "html > body > div";
     event_type := "click"; handler := "x()" |}
    ∈ extractEventsFromAttributes sample_getSelector "div" div_onclick.
Proof.
  apply (proj1 (extractEventsFromAttributes_sound_complete sample_getSelector
                  "div" div_onclick)).
  exists {| nodeName := "onclick"; nodeValue := "x()" |}.
  split; [elem_of_concrete|]. split; reflexivity.
Defined.

Lemma extractEventsFromAttributes_short_names_witness :
  (∀ attr, attr ∈ attributes (data div_with_id) →
           (String.length (nodeName attr) ≤ 2)%nat)
  ∧ extractEventsFromAttributes sample_getSelector "div" div_with_id = [].
Proof.
  assert (H : ∀ attr, attr ∈ attributes (data div_with_id) →
                      (String.length (nodeName attr) ≤ 2)%nat).
  { intros attr Hin. apply list_elem_of_In in Hin. cbn in Hin.
    destruct Hin as [<-|[]]. cbn. lia. }
  split; [exact H|].
  exact (extractEventsFromAttributes_short_names sample_getSelector "div"
           div_with_id H).
Defined.

Lemma extractInheritedEvents_sound_complete_witness :
  button_click ∈ extractInheritedEvents sample_getSelector "button" button_in_a.
Proof.
  apply (proj1 (extractInheritedEvents_sound_complete sample_getSelector
                  "button" button_in_a)).
  split; [reflexivity|].
  exists a_onclick, {| nodeName := "onclick"; nodeValue := "go()" |}.
  split; [elem_of_concrete|]. split; [elem_of_concrete|]. split; reflexivity.
Defined.

Lemma getElementsWithEventHandlers_sound_complete_witness :
  button_click ∈ getElementsWithEventHandlers sample_getSelector ["click"]
                   sample_page.
Proof.
  apply (getElementsWithEventHandlers_sound_complete sample_getSelector
           sample_page ["click"] button_click).
  exists button_in_a, a_onclick, {| nodeName := "onclick"; nodeValue := "go()" |}.
  split; [elem_of_concrete|]. split; [reflexivity|].
  split; [elem_of_concrete|]. split; [right; reflexivity|].
  split; [elem_of_concrete|].
  repeat (split; [reflexivity|]). right. elem_of_concrete.
Defined.

Lemma getElementsWithEventHandlers_vocabulary_witness :
  button_click ∈ getElementsWithEventHandlers sample_getSelector [] sample_page
  ∧ event_type button_click ∈ known_event_types.
Proof.
  assert (H : button_click ∈ getElementsWithEventHandlers sample_getSelector []
                               sample_page) by elem_of_concrete.
  split; [exact H|].
  exact (getElementsWithEventHandlers_vocabulary sample_getSelector sample_page
           [] button_click H).
Defined.

Lemma inline_handler_is_discovered_witness :
  button_click ∈ getElementsWithEventHandlers sample_getSelector ["click"]
                   sample_page.
Proof.
  apply (inline_handler_is_discovered sample_getSelector sample_page ["click"]
           button_in_a a_onclick "click" "go()").
  - elem_of_concrete.
  - reflexivity.
  - elem_of_concrete.
  - right. reflexivity.
  - elem_of_concrete.
  - reflexivity.
  - right. elem_of_concrete.
Defined.




